(** * Co-authorship aggregation and analytics: a shallow embedding

    The development follows the two Python sources of the repository:

    - [507final_project/DataStructure.py]: [ArticleAnalyzer.extract_authors]
      folds a list of articles into a dictionary of author records and dumps
      it to a per-category JSON file;
    - [si507final/coauthor.py]: [ArticleAnalyzer.get_articles] reads such a
      file back after validating the category typed by the user, and
      [AuthorComparer] offers the analytics (ranking, co-author counts, most
      frequent pair).

    Python dictionaries keep insertion order, and both the stable sort of
    [most_influential] and the tie-break of [max] depend on it, so a dictionary
    is an association list with in-place update.  Python integers are [Z]. *)

From Stdlib Require Import ZArith List String Ascii Permutation Sorted Lia.
From stdpp Require Import base decidable option list sorting gmap strings pretty.

Import ListNotations.
Local Open Scope string_scope.
Local Open Scope list_scope.
Local Open Scope Z_scope.

(** ** Python values used by both files *)

(** The value stored under an author name:
    [{'co_authors': [...], 'num_pubs': n}]. *)
Record AuthorRecord := mkRecord {
  co_authors : list string;
  num_pubs : Z
}.

(** A Python [dict]: keys in insertion order, one entry per key. *)
Section PyDict.
Context {K V : Type} `{EqDecision K}.

(** [d.get(k)], also the test [k in d] when read as [is_Some]. *)
Fixpoint dict_get (d : list (K * V)) (k : K) : option V :=
  match d with
  | [] => None
  | (k', v) :: d' => if decide (k' = k) then Some v else dict_get d' k
  end.

(** [d[k] = v]: an existing key keeps its position, a new key goes last. *)
Fixpoint dict_set (d : list (K * V)) (k : K) (v : V) : list (K * V) :=
  match d with
  | [] => [(k, v)]
  | (k', v') :: d' =>
      if decide (k' = k) then (k', v) :: d' else (k', v') :: dict_set d' k v
  end.

Definition dict_keys (d : list (K * V)) : list K := map fst d.

(** The invariant of a dictionary: no key occurs twice. *)
Definition dict_wf (d : list (K * V)) : Prop := NoDup (dict_keys d).
End PyDict.

(** [list(set(l))]: the distinct elements of [l], in the order the set's
    hashing yields, which Python leaves unspecified. *)
Definition list_set (l : list string) : list string :=
  elements (list_to_set l : gset string).

(** [sorted(l, key=key, reverse=reverse)].  Python's sort is stable; with
    [reverse=True] the list is reversed, sorted, and reversed again, so that
    equal keys still come out in their original order. *)
Section Sorted.
Context {A : Type} (key : A -> Z).

Fixpoint insert_by (x : A) (l : list A) : list A :=
  match l with
  | [] => [x]
  | y :: l' => if key x <=? key y then x :: l else y :: insert_by x l'
  end.

Definition sort_by (l : list A) : list A := fold_right insert_by [] l.

Definition sorted (reverse : bool) (l : list A) : list A :=
  if reverse then rev (sort_by (rev l)) else sort_by l.

(** [max(l, key=key)] on a non-empty [l]: the first item whose key is
    largest.  [None] stands for the [ValueError] on an empty argument. *)
Definition py_max (l : list A) : option A :=
  match l with
  | [] => None
  | x :: l' =>
      Some (fold_left (fun best y => if key best <? key y then y else best) l' x)
  end.
End Sorted.

(** [tuple(sorted((a, b)))] on two strings, ordered by code point. *)
Definition sorted_pair (a b : string) : string * string :=
  if String.ltb b a then (b, a) else (a, b).

(** [len(l)]. *)
Definition len {A : Type} (l : list A) : Z := Z.of_nat (length l).

(** [s.lower()], on ASCII letters (the six category names are ASCII). *)
Definition lower_ascii (c : ascii) : ascii :=
  let n := N_of_ascii c in
  if ((65 <=? n) && (n <=? 90))%N then ascii_of_N (n + 32) else c.

Fixpoint lower (s : string) : string :=
  match s with
  | EmptyString => EmptyString
  | String c s' => String (lower_ascii c) (lower s')
  end.

(** [s.replace(old, new)] for one-character [old] and [new]. *)
Fixpoint replace (old new : ascii) (s : string) : string :=
  match s with
  | EmptyString => EmptyString
  | String c s' =>
      String (if Ascii.eqb c old then new else c) (replace old new s')
  end.

(** The six categories, as listed in both files. *)
Definition categories : list string :=
  ["physics"; "mathematics"; "computer science"; "quantitative biology";
   "quantitative finance"; "statistics"].

(** The directory [author_data/]: file name to the dictionary that
    [json.dump] stored there ([json.load] returns it with the same keys, in
    the same order). *)
Definition Disk := list (string * list (string * AuthorRecord)).

(** ** Exceptions and state *)

Inductive exn :=
  | FileNotFoundError (path : string)
  | ValueError
  | KeyError.

Inductive outcome (A : Type) :=
  | Returned (a : A)
  | Raised (e : exn).
Arguments Returned {A} _.
Arguments Raised {A} _.

(** A method body: it runs on the state [S] it can reach through [self] and
    either returns or raises. *)
Definition M (S A : Type) : Type := S -> outcome A * S.

Definition ret {S A} (a : A) : M S A := fun s => (Returned a, s).
Definition raise {S A} (e : exn) : M S A := fun s => (Raised e, s).
Definition bind {S A B} (c : M S A) (k : A -> M S B) : M S B :=
  fun s => match c s with
           | (Returned a, s') => k a s'
           | (Raised e, s') => (Raised e, s')
           end.
Definition get {S} : M S S := fun s => (Returned s, s).
Definition put {S} (s' : S) : M S unit := fun _ => (Returned tt, s').

Notation "'let!' x ':=' c 'in' k" := (bind c (fun x => k))
  (at level 10, x name, c at level 100, k at level 200, only parsing).

(** [max(...)] raising on an empty argument, and [d[k]]. *)
Definition max_or_raise {S A} (key : A -> Z) (l : list A) : M S A :=
  match py_max key l with
  | Some x => ret x
  | None => raise ValueError
  end.

Definition getitem {S K V} `{EqDecision K} (d : list (K * V)) (k : K) : M S V :=
  match dict_get d k with
  | Some v => ret v
  | None => raise KeyError
  end.

(** [d.get] used as a sort key on the keys of [d]. *)
Definition dict_get_int {K} `{EqDecision K} (d : list (K * Z)) (k : K) : Z :=
  default 0 (dict_get d k).

(** [dict(items)]. *)
Definition dict_of_items {K V} `{EqDecision K} (items : list (K * V))
    : list (K * V) :=
  fold_left (fun d kv => dict_set d (fst kv) (snd kv)) items [].

(** The author objects of the [arxiv] package that [Search.results()]
    yields: a [name], and an equality ([__eq__], hence [!=]) that compares
    the names. *)
Module Arxiv.
Record Author := mkAuthor { name : string }.

Definition ne (a b : Author) : bool := negb (String.eqb (name a) (name b)).
End Arxiv.

(** ** DataStructure.py *)

Module DataStructure.

(** An article as far as the code reads it: [article.authors]. *)
Record Article (Author : Type) := mkArticle {
  authors : list Author
}.
Arguments mkArticle {Author} _.
Arguments authors {Author} _.

Section ExtractAuthors.
(** The author objects come from the [arxiv] package; the code uses their
    attribute [name] and compares them with [!=]. *)
Context {Author : Type} (name : Author -> string) (ne : Author -> Author -> bool).

(** The body of the inner loop, for one [author] of [authors_list]. *)
Definition visit_author (authors_list : list Author)
    (authors : list (string * AuthorRecord)) (author : Author)
    : list (string * AuthorRecord) :=
  let author_name := name author in
  let co_authors' := map name (List.filter (fun a => ne a author) authors_list) in
  match dict_get authors author_name with
  | None => dict_set authors author_name (mkRecord co_authors' 1)
  | Some r =>
      (* .extend(co_authors); = list(set(...)); num_pubs += 1 *)
      let r := mkRecord (co_authors r ++ co_authors') (num_pubs r) in
      let r := mkRecord (list_set (co_authors r)) (num_pubs r) in
      let r := mkRecord (co_authors r) (num_pubs r + 1) in
      dict_set authors author_name r
  end.

(** The body of the outer loop, for one [article]. *)
Definition visit_article (authors : list (string * AuthorRecord))
    (article : Article Author) : list (string * AuthorRecord) :=
  fold_left (visit_author (DataStructure.authors article))
            (DataStructure.authors article) authors.

(** The dictionary built by the two loops (lines 42-53). *)
Definition aggregate (articles : list (Article Author))
    : list (string * AuthorRecord) :=
  fold_left visit_article articles [].

(** [extract_authors(articles, category)]: the dictionary is dumped to the
    category's file; the method returns nothing. *)
Definition extract_authors (articles : list (Article Author))
    (category : string) : M Disk unit :=
  let authors := aggregate articles in
  let category := replace " " "_" category in
  let! disk := get in
  put (dict_set disk ("author_data/" +:+ category +:+ "_authors.json") authors).
End ExtractAuthors.

Section Main.
(** The script run as a program.  [fetch] stands for the other method,
    [get_articles(category)], which queries the arXiv API. *)
Context {Author : Type} (name : Author -> string) (ne : Author -> Author -> bool).
Context (fetch : string -> list (Article Author)).

(** One pass of the loop over the categories, on the files and the lines
    printed so far. *)
Definition main_step (st : Disk * list string) (category : string)
    : Disk * list string :=
  let articles := fetch category in
  let disk := snd (extract_authors name ne articles category (fst st)) in
  (disk, snd st ++ ["Authors extracted for " +:+ category +:+ " category."]).

Definition main (st : Disk * list string) : Disk * list string :=
  fold_left main_step categories st.
End Main.

End DataStructure.

(** ** coauthor.py *)

Module Coauthor.

(** What [ArticleAnalyzer.get_articles] can reach: its attribute
    [self.authors], the files, the terminal, and the log of the files it
    opened. *)
Record Session := mkSession {
  self_authors : list (string * AuthorRecord);
  disk : Disk;
  stdout : list string;
  opened : list string
}.

Definition print (line : string) : M Session unit :=
  fun s => (Returned tt,
            mkSession (self_authors s) (disk s) (stdout s ++ [line]) (opened s)).

(** [with open(path, 'r') as f: json.load(f)]. *)
Definition load (path : string) : M Session (list (string * AuthorRecord)) :=
  fun s =>
    match dict_get (disk s) path with
    | Some content =>
        (Returned content,
         mkSession (self_authors s) (disk s) (stdout s) (opened s ++ [path]))
    | None => (Raised (FileNotFoundError path), s)
    end.

Definition set_authors (articles : list (string * AuthorRecord)) : M Session unit :=
  fun s => (Returned tt, mkSession articles (disk s) (stdout s) (opened s)).

Definition prompt : string :=
  "Enter the category of articles you would like to search for out of Physics, Mathematics, Computer Science, Quantitative Biology, Quantitative Finance, and Statistics: ".

Section GetArticles.
(** The choice [random.sample] makes among the items, for a population
    that is large enough. *)
Context (choose : list (string * AuthorRecord) -> nat -> list (string * AuthorRecord)).

Definition random_sample {S} (population : list (string * AuthorRecord)) (k : nat)
    : M S (list (string * AuthorRecord)) :=
  if (length population <? k)%nat then raise ValueError
  else ret (choose population k).

(** [ArticleAnalyzer.get_articles], with [typed] the line the user enters.
    The bare [return] gives [None]. *)
Definition get_articles (typed : string)
    : M Session (option (list (string * AuthorRecord))) :=
  let! _ := print prompt in
  let category := lower typed in
  if negb (bool_decide (category ∈ categories)) then
    let! _ := print "Invalid category. Please try again." in
    ret None
  else
    let category := replace " " "_" category in
    let! all_articles := load ("author_data/" +:+ category +:+ "_authors.json") in
    let! sample := random_sample all_articles 50 in
    let articles := dict_of_items sample in
    let! _ := set_authors articles in
    ret (Some articles).
End GetArticles.

(** *** AuthorComparer: the state is [self.authors] *)

Definition Authors := list (string * AuthorRecord).

Definition most_influential : M Authors (list (string * AuthorRecord)) :=
  let! authors := get in
  ret (sorted (fun x => num_pubs (snd x)) true authors).

Definition num_coauths_all : M Authors (string * Z) :=
  let! authors := get in
  let author_coauthors :=
    fold_left (fun acc item => dict_set acc (fst item) (len (co_authors (snd item))))
              authors [] in
  let! most_influential_author :=
    max_or_raise (dict_get_int author_coauthors) (dict_keys author_coauthors) in
  let! n := getitem author_coauthors most_influential_author in
  ret (most_influential_author, n).

Definition num_coauths (target_author : string) : M Authors Z :=
  let! authors := get in
  match dict_get authors target_author with
  | Some data => ret (len (co_authors data))
  | None => ret 0
  end.

Definition compare_authors (user_author : string) : M Authors string :=
  let! best := num_coauths_all in
  let most_influential_author := fst best in
  let most_influential_author_coauthors := snd best in
  let! user_author_coauthors := num_coauths user_author in
  if bool_decide (user_author = most_influential_author) then
    ret (user_author +:+ " is the most influential author with " +:+
         pretty most_influential_author_coauthors +:+ " unique co-authors.")
  else if bool_decide (user_author_coauthors = most_influential_author_coauthors) then
    ret (user_author +:+ " is tied with " +:+ most_influential_author +:+
         " for the most unique co-authors with " +:+
         pretty most_influential_author_coauthors +:+ ".")
  else
    ret (user_author +:+ " has " +:+ pretty user_author_coauthors +:+
         " unique co-authors, while the author with the most unique co-authors is " +:+
         most_influential_author +:+ " with " +:+
         pretty most_influential_author_coauthors +:+ ".").

(** One pass of the inner loop of [most_common_coauthors]. *)
Definition count_pair (author : string) (coauthor_counts : list (string * string * Z))
    (coauthor : string) : list (string * string * Z) :=
  let pair := sorted_pair author coauthor in
  match dict_get coauthor_counts pair with
  | None => dict_set coauthor_counts pair 1
  | Some n => dict_set coauthor_counts pair (n + 1)
  end.

(** The dictionary [coauthor_counts] after the two loops. *)
Definition count_pairs (authors : Authors) : list (string * string * Z) :=
  fold_left (fun counts item =>
               fold_left (count_pair (fst item)) (co_authors (snd item)) counts)
            authors [].

Definition most_common_coauthors : M Authors (string * string * Z) :=
  let! authors := get in
  let coauthor_counts := count_pairs authors in
  let! most_common_pair :=
    max_or_raise (dict_get_int coauthor_counts) (dict_keys coauthor_counts) in
  let! most_common_count := getitem coauthor_counts most_common_pair in
  ret (most_common_pair, most_common_count).

(** [ArticleAnalyzer.__init__]: [self.authors = {}], on given files and
    terminal. *)
Definition new_analyzer (files : Disk) (lines : list string) : Session :=
  mkSession [] files lines [].

(** *** The bar charts

    A horizontal bar chart as the code hands it to [plt.barh]: the labels
    and the widths.  The display is the list of the charts shown so far. *)
Inductive Chart :=
  | BarH (labels : list string) (widths : list Z).

Definition show (chart : Chart) : M (list Chart) unit :=
  fun shown => (Returned tt, shown ++ [chart]).

(** [AuthorVisualizer.visualize_top_authors(top_authors)]. *)
Definition visualize_top_authors (top_authors : list (string * AuthorRecord))
    : M (list Chart) unit :=
  let top_authors := firstn 10 top_authors in
  let author_names := map fst top_authors in
  let num_pubs := map (fun item => num_pubs (snd item)) top_authors in
  show (BarH author_names num_pubs).

(** [AuthorComparer.visualize_unique_coauthors], on the dictionary
    [authors] of the comparer. *)
Definition visualize_unique_coauthors (authors : Authors) : M (list Chart) unit :=
  let author_coauthors :=
    map (fun item => (fst item, len (co_authors (snd item)))) authors in
  let author_coauthors := sorted snd true author_coauthors in
  let top_10_authors := firstn 10 author_coauthors in
  let author_names := map fst top_10_authors in
  let num_coauthors := map snd top_10_authors in
  show (BarH author_names num_coauthors).

End Coauthor.

(** * Vocabulary of the statements *)

(** The fields of the record stored under a name, with the defaults of an
    author not seen yet. *)
Definition pubs_of (d : list (string * AuthorRecord)) (n : string) : Z :=
  match dict_get d n with Some r => num_pubs r | None => 0 end.

Definition coauthors_of (d : list (string * AuthorRecord)) (n : string) : list string :=
  match dict_get d n with Some r => co_authors r | None => [] end.

Section Readings.
Context {Author : Type} (name : Author -> string) (ne : Author -> Author -> bool).
Implicit Types (n m : string) (articles : list (DataStructure.Article Author)).

(** How often [n] is listed among [l]. *)
Definition listed n (l : list Author) : nat :=
  length (List.filter (fun a => bool_decide (name a = n)) l).

(** The listings of [n] over all the articles. *)
Definition listings n articles : nat :=
  list_sum (map (fun article => listed n (DataStructure.authors article)) articles).

(** The number of articles that list [n] at all. *)
Definition articles_with n articles : nat :=
  length (List.filter
            (fun article => bool_decide (n ∈ map name (DataStructure.authors article)))
            articles).

(** [m] is listed in [l] by an object that compares unequal to one
    listed under [n]. *)
Definition beside n m (l : list Author) : Prop :=
  exists x y, x ∈ l /\ y ∈ l /\ name x = n /\ ne y x = true /\ name y = m.
End Readings.

(** A method body that leaves the state it runs on as it found it, whether
    it returns or raises. *)
Definition read_only {S A} (c : M S A) : Prop := forall s, snd (c s) = s.

(** Every (author, co-author) that the two loops meet, in their order. *)
Definition mentions (authors : Coauthor.Authors) : list (string * string) :=
  flat_map (fun item => map (fun coauthor => (fst item, coauthor))
                            (co_authors (snd item)))
           authors.

(** How many of the pairs [ms] are filed under [key]. *)
Definition tally (key : string * string) (ms : list (string * string)) : nat :=
  length (List.filter (fun m => bool_decide (sorted_pair (fst m) (snd m) = key)) ms).

(** How many of the pairs [ms] are the pair [p] itself. *)
Definition occurrences (p : string * string) (ms : list (string * string)) : nat :=
  length (List.filter (fun m => bool_decide (m = p)) ms).

(** How often [b] occurs in the co-author list of [a]. *)
Definition mentions_of (authors : Coauthor.Authors) (a b : string) : nat :=
  length (List.filter (fun c => bool_decide (c = b)) (coauthors_of authors a)).

(** The names of all the listings, in the order the loops meet them. *)
Definition all_names {Author : Type} (name : Author -> string)
    (articles : list (DataStructure.Article Author)) : list string :=
  flat_map (fun article => map name (DataStructure.authors article)) articles.

(** The distinct elements of a list, each at its first occurrence. *)
Definition first_seen (l : list string) : list string :=
  rev (remove_dups (rev l)).

(** The sum of the [num_pubs] of a dictionary. *)
Definition total_pubs (d : list (string * AuthorRecord)) : Z :=
  fold_right (fun item acc => num_pubs (snd item) + acc) 0 d.

(** Every record counts at least one listing, and from the second listing
    on its co-author list has gone through [list(set(...))]. *)
Definition counted_and_deduplicated (d : list (string * AuthorRecord)) : Prop :=
  forall n r, dict_get d n = Some r ->
    1 <= num_pubs r /\ (2 <= num_pubs r -> NoDup (co_authors r)).

(** The file of a category, as both programs name it. *)
Definition file_of (category : string) : string :=
  "author_data/" +:+ replace " " "_" category +:+ "_authors.json".

(** ** Sample inputs *)

(** An article written by A and B. *)
Definition article_AB : DataStructure.Article Arxiv.Author :=
  DataStructure.mkArticle [Arxiv.mkAuthor "A"; Arxiv.mkAuthor "B"].

(** An article that lists A twice, beside B. *)
Definition article_AAB : DataStructure.Article Arxiv.Author :=
  DataStructure.mkArticle [Arxiv.mkAuthor "A"; Arxiv.mkAuthor "A"; Arxiv.mkAuthor "B"].

(** The dictionary that [extract_authors] dumps for the single article of A
    and B. *)
Definition authors_AB : Coauthor.Authors :=
  [("A", mkRecord ["B"] 1); ("B", mkRecord ["A"] 1)].

(** A session that starts on the files left by one run of
    [extract_authors] for computer science. *)
Definition session_after_dump : Coauthor.Session :=
  Coauthor.mkSession []
    (snd (DataStructure.extract_authors Arxiv.name Arxiv.ne
            [article_AB] "computer science" []))
    [] [].

(** Sixty authors without co-authors, named by their numbers, and a session
    that finds them in the file for statistics. *)
Definition sixty_authors : Coauthor.Authors :=
  map (fun i : nat => (pretty i, mkRecord [] 1)) (seq 0 60).

Definition session_with_sixty : Coauthor.Session :=
  Coauthor.mkSession [] [(file_of "statistics", sixty_authors)] [] [].

(** An article of sixty authors, and a query that finds it in every
    category. *)
Definition article_of_sixty : DataStructure.Article Arxiv.Author :=
  DataStructure.mkArticle (map (fun i : nat => Arxiv.mkAuthor (pretty i)) (seq 0 60)).

Definition fetch_sixty (category : string) : list (DataStructure.Article Arxiv.Author) :=
  [article_of_sixty].

(** A sampler that takes the first items. *)
Definition take_first (l : list (string * AuthorRecord)) (k : nat)
    : list (string * AuthorRecord) :=
  firstn k l.

(** * Properties *)

(** ** Dictionaries *)

Section PyDictFacts.
Context {K V : Type} `{EqDecision K}.
Implicit Types (d : list (K * V)) (k : K) (v : V).

Lemma dict_get_set d k v k' :
  dict_get (dict_set d k v) k' = if decide (k = k') then Some v else dict_get d k'.
Proof.
  induction d as [|[k0 v0] d IH]; simpl.
  - destruct (decide (k = k')); reflexivity.
  - destruct (decide (k0 = k)) as [->|Hk0]; simpl.
    + destruct (decide (k = k')); reflexivity.
    + destruct (decide (k0 = k')) as [->|Hk0'].
      * destruct (decide (k = k')); congruence.
      * exact IH.
Qed.

Lemma dict_get_set_eq d k v : dict_get (dict_set d k v) k = Some v.
Proof. rewrite dict_get_set. destruct (decide (k = k)); congruence. Qed.

Lemma dict_get_set_ne d k v k' :
  k <> k' -> dict_get (dict_set d k v) k' = dict_get d k'.
Proof. intros Hne. rewrite dict_get_set. destruct (decide (k = k')); congruence. Qed.

Lemma dict_get_Some_elem d k v : dict_get d k = Some v -> (k, v) ∈ d.
Proof.
  induction d as [|[k0 v0] d IH]; simpl; [discriminate|].
  destruct (decide (k0 = k)) as [->|_].
  - intros [= ->]. left.
  - intros Hg. right. now apply IH.
Qed.

Lemma dict_get_None_keys d k : dict_get d k = None <-> k ∉ dict_keys d.
Proof.
  unfold dict_keys.
  induction d as [|[k0 v0] d IH]; simpl.
  - split; [intros _; apply not_elem_of_nil | reflexivity].
  - rewrite not_elem_of_cons.
    destruct (decide (k0 = k)) as [->|Hne].
    + split; [discriminate | intros [Hn _]; congruence].
    + rewrite IH. split; [intros Hn; split; [congruence | exact Hn] | tauto].
Qed.

Lemma dict_get_None_keys_neg d k : dict_get d k <> None -> k ∈ dict_keys d.
Proof.
  intros Hg. destruct (decide (k ∈ dict_keys d)) as [Hin|Hout]; [exact Hin|].
  now apply dict_get_None_keys in Hout.
Qed.

Lemma dict_get_elem d k v : dict_wf d -> (k, v) ∈ d -> dict_get d k = Some v.
Proof.
  unfold dict_wf, dict_keys.
  induction d as [|[k0 v0] d IH]; simpl.
  - intros _ Hin. now apply elem_of_nil in Hin.
  - intros [Hfresh Hwf]%NoDup_cons [[= -> ->]|Hin]%elem_of_cons.
    + destruct (decide (k0 = k0)); congruence.
    + destruct (decide (k0 = k)) as [->|_]; [|now apply IH].
      exfalso. apply Hfresh. apply list_elem_of_In, in_map_iff.
      exists (k, v). split; [reflexivity | now apply list_elem_of_In].
Qed.

Lemma dict_keys_set d k v :
  dict_keys (dict_set d k v) =
  match dict_get d k with
  | Some _ => dict_keys d
  | None => dict_keys d ++ [k]
  end.
Proof.
  unfold dict_keys.
  induction d as [|[k0 v0] d IH]; simpl; [reflexivity|].
  destruct (decide (k0 = k)) as [->|Hne]; simpl; [reflexivity|].
  rewrite IH. now destruct (dict_get d k).
Qed.

Lemma dict_wf_set d k v : dict_wf d -> dict_wf (dict_set d k v).
Proof.
  unfold dict_wf. intros Hwf. rewrite dict_keys_set.
  destruct (dict_get d k) eqn:Hg; [exact Hwf|].
  apply dict_get_None_keys in Hg.
  apply NoDup_app. split; [exact Hwf|]. split.
  - intros x Hx ->%list_elem_of_singleton. now apply Hg.
  - apply NoDup_singleton.
Qed.
End PyDictFacts.

(** ** DataStructure.py: what [extract_authors] aggregates *)

Lemma elem_of_map {A B} (f : A -> B) (l : list A) (y : B) :
  y ∈ map f l <-> exists x, x ∈ l /\ f x = y.
Proof.
  rewrite list_elem_of_In, in_map_iff.
  split; intros (x & H1 & H2); exists x; [rewrite list_elem_of_In|rewrite <- list_elem_of_In]; tauto.
Qed.

Lemma elem_of_List_filter {A} (f : A -> bool) (l : list A) (x : A) :
  x ∈ List.filter f l <-> x ∈ l /\ f x = true.
Proof. now rewrite !list_elem_of_In, filter_In. Qed.

Lemma elem_of_list_set (l : list string) (x : string) : x ∈ list_set l <-> x ∈ l.
Proof. unfold list_set. now rewrite elem_of_elements, elem_of_list_to_set. Qed.

Lemma NoDup_list_set (l : list string) : NoDup (list_set l).
Proof. unfold list_set. apply NoDup_elements. Qed.

Module DataStructureFacts.
Import DataStructure.

Section Aggregate.
Context {Author : Type} (name : Author -> string) (ne : Author -> Author -> bool).
Implicit Types (d : list (string * AuthorRecord)) (n m : string)
  (article : Article Author) (articles : list (Article Author)).

Local Abbreviation listed := (listed name).
Local Abbreviation listings := (listings name).
Local Abbreviation articles_with := (articles_with name).
Local Abbreviation beside := (beside name ne).
Local Abbreviation visit_author := (visit_author name ne).
Local Abbreviation visit_article := (visit_article name ne).
Local Abbreviation aggregate := (aggregate name ne).

Lemma visit_author_other al d a n :
  name a <> n -> dict_get (visit_author al d a) n = dict_get d n.
Proof.
  intros Hne. unfold DataStructure.visit_author.
  destruct (dict_get d (name a)); simpl; now apply dict_get_set_ne.
Qed.

Lemma visit_author_is_Some al d a n :
  is_Some (dict_get (visit_author al d a) n) <->
  is_Some (dict_get d n) \/ name a = n.
Proof.
  destruct (decide (name a = n)) as [<-|Hne].
  - unfold DataStructure.visit_author.
    destruct (dict_get d (name a)) eqn:Hg; simpl; rewrite dict_get_set_eq;
      split; eauto.
  - rewrite visit_author_other by exact Hne. tauto.
Qed.

Lemma visit_author_pubs al d a n :
  pubs_of (visit_author al d a) n =
  pubs_of d n + (if bool_decide (name a = n) then 1 else 0).
Proof.
  unfold pubs_of. case_bool_decide as Hn.
  - subst n. unfold DataStructure.visit_author.
    destruct (dict_get d (name a)) eqn:Hg; simpl; rewrite dict_get_set_eq;
      simpl; lia.
  - rewrite visit_author_other by exact Hn. lia.
Qed.

Lemma visit_author_coauthors al d a n m :
  m ∈ coauthors_of (visit_author al d a) n <->
  m ∈ coauthors_of d n \/
  (name a = n /\ exists y, y ∈ al /\ ne y a = true /\ name y = m).
Proof.
  unfold coauthors_of.
  destruct (decide (name a = n)) as [<-|Hne].
  - assert (Hco : m ∈ map name (List.filter (fun x => ne x a) al) <->
                  exists y, y ∈ al /\ ne y a = true /\ name y = m).
    { rewrite elem_of_map. split.
      - intros (y & [Hy Hb]%elem_of_List_filter & Hm). eauto.
      - intros (y & Hy & Hb & Hm). exists y. rewrite elem_of_List_filter. auto. }
    unfold DataStructure.visit_author.
    destruct (dict_get d (name a)) eqn:Hg; simpl; rewrite dict_get_set_eq; simpl.
    + rewrite elem_of_list_set, elem_of_app, Hco. tauto.
    + rewrite Hco. split; [intros H; right; auto|].
      intros [[]%elem_of_nil|[_ H]]; exact H.
  - rewrite visit_author_other by exact Hne. tauto.
Qed.

(** The inner loop, over the authors [l] still to visit. *)
Lemma inner_loop_is_Some al l d n :
  is_Some (dict_get (fold_left (visit_author al) l d) n) <->
  is_Some (dict_get d n) \/ n ∈ map name l.
Proof.
  revert d. induction l as [|a l IH]; intros d; simpl.
  - rewrite elem_of_nil. tauto.
  - rewrite IH, visit_author_is_Some, elem_of_cons.
    split; [intros [[?|?]|?]|intros [?|[?|?]]]; auto.
Qed.

Lemma inner_loop_pubs al l d n :
  pubs_of (fold_left (visit_author al) l d) n = pubs_of d n + Z.of_nat (listed n l).
Proof.
  revert d. induction l as [|a l IH]; intros d; simpl.
  - unfold listed. simpl. lia.
  - rewrite IH, visit_author_pubs. unfold listed. simpl.
    destruct (bool_decide (name a = n)); simpl; lia.
Qed.

Lemma inner_loop_coauthors al l d n m :
  m ∈ coauthors_of (fold_left (visit_author al) l d) n <->
  m ∈ coauthors_of d n \/
  exists x y, x ∈ l /\ y ∈ al /\ name x = n /\ ne y x = true /\ name y = m.
Proof.
  revert d. induction l as [|a l IH]; intros d; simpl.
  - split; [auto|]. intros [H|(x & y & []%elem_of_nil & _)]. exact H.
  - rewrite IH, visit_author_coauthors. split.
    + intros [[H|(Hn & y & Hy & Hb & Hm)]|(x & y & Hx & H)]; auto.
      * right. exists a, y. rewrite elem_of_cons. auto.
      * right. exists x, y. rewrite elem_of_cons. auto.
    + intros [H|(x & y & [->|Hx]%elem_of_cons & Hy & Hn & Hb & Hm)]; auto.
      * left. right. eauto.
      * right. eauto 8.
Qed.

(** The outer loop, started from any dictionary [d]. *)
Lemma outer_loop_is_Some articles d n :
  is_Some (dict_get (fold_left visit_article articles d) n) <->
  is_Some (dict_get d n) \/
  exists article, article ∈ articles /\ n ∈ map name (authors article).
Proof.
  revert d. induction articles as [|art articles IH]; intros d; simpl.
  - split; [auto|]. intros [H|(x & []%elem_of_nil & _)]. exact H.
  - rewrite IH. unfold DataStructure.visit_article.
    rewrite inner_loop_is_Some. split.
    + intros [[H|H]|(x & Hx & H)]; auto.
      * right. exists art. rewrite elem_of_cons. auto.
      * right. exists x. rewrite elem_of_cons. auto.
    + intros [H|(x & [->|Hx]%elem_of_cons & H)]; eauto.
Qed.

Lemma outer_loop_pubs articles d n :
  pubs_of (fold_left visit_article articles d) n =
  pubs_of d n + Z.of_nat (listings n articles).
Proof.
  revert d. induction articles as [|art articles IH]; intros d; simpl.
  - unfold listings. simpl. lia.
  - rewrite IH. unfold DataStructure.visit_article.
    rewrite inner_loop_pubs. unfold listings. simpl. lia.
Qed.

Lemma outer_loop_coauthors articles d n m :
  m ∈ coauthors_of (fold_left visit_article articles d) n <->
  m ∈ coauthors_of d n \/
  exists article, article ∈ articles /\ beside n m (authors article).
Proof.
  revert d. induction articles as [|art articles IH]; intros d; simpl.
  - split; [auto|]. intros [H|(x & []%elem_of_nil & _)]. exact H.
  - rewrite IH. unfold DataStructure.visit_article.
    rewrite inner_loop_coauthors. unfold beside. split.
    + intros [[H|(x & y & H)]|(art' & Hin & H)]; auto.
      * right. exists art. rewrite elem_of_cons. split; [auto|]. exists x, y. tauto.
      * right. exists art'. rewrite elem_of_cons. auto.
    + intros [H|(art' & [->|Hin]%elem_of_cons & x & y & H)]; auto.
      * left. right. exists x, y. tauto.
      * right. exists art'. split; [exact Hin|]. exists x, y. exact H.
Qed.

(** The three readings of the dictionary that [extract_authors] dumps. *)
Lemma aggregate_is_Some articles n :
  is_Some (dict_get (aggregate articles) n) <->
  exists article, article ∈ articles /\ n ∈ map name (authors article).
Proof.
  unfold DataStructure.aggregate. rewrite outer_loop_is_Some. simpl.
  split; [|auto]. intros [H|H]; [|exact H]. now apply is_Some_None in H.
Qed.

Lemma aggregate_pubs articles n :
  pubs_of (aggregate articles) n = Z.of_nat (listings n articles).
Proof. unfold DataStructure.aggregate. now rewrite outer_loop_pubs. Qed.

Lemma aggregate_coauthors articles n m :
  m ∈ coauthors_of (aggregate articles) n <->
  exists article, article ∈ articles /\ beside n m (authors article).
Proof.
  unfold DataStructure.aggregate. rewrite outer_loop_coauthors.
  unfold coauthors_of at 1. simpl. rewrite elem_of_nil. tauto.
Qed.

(** A name listed once per article is listed as often as there are
    articles with it. *)
Lemma listed_NoDup n (l : list Author) :
  NoDup (map name l) ->
  listed n l = if bool_decide (n ∈ map name l) then 1%nat else 0%nat.
Proof.
  unfold listed. induction l as [|a l IH]; cbn [map List.filter].
  - intros _. reflexivity.
  - intros [Hfresh Hnd]%NoDup_cons. specialize (IH Hnd).
    rewrite (bool_decide_ext (n ∈ name a :: map name l)
                             (n = name a \/ n ∈ map name l))
      by apply elem_of_cons.
    destruct (bool_decide (name a = n)) eqn:Ha.
    + apply bool_decide_eq_true in Ha. subst n. simpl. rewrite IH.
      rewrite (bool_decide_eq_false_2 _ Hfresh).
      now rewrite bool_decide_eq_true_2 by auto.
    + apply bool_decide_eq_false in Ha. rewrite IH.
      rewrite (bool_decide_ext (n = name a \/ n ∈ map name l) (n ∈ map name l));
        [reflexivity|].
      split; [|auto]. intros [?|?]; congruence.
Qed.

Lemma listings_NoDup n articles :
  (forall article, article ∈ articles -> NoDup (map name (authors article))) ->
  listings n articles = articles_with n articles.
Proof.
  unfold listings, articles_with.
  induction articles as [|art articles IH]; intros Hnd; simpl; [reflexivity|].
  rewrite IH by (intros x Hx; apply Hnd; now right).
  rewrite listed_NoDup by (apply Hnd; left).
  now destruct (bool_decide (n ∈ map name (authors art))).
Qed.

Lemma listings_app n l1 l2 :
  listings n (l1 ++ l2) = (listings n l1 + listings n l2)%nat.
Proof. unfold listings. now rewrite map_app, list_sum_app. Qed.

(** C1: whatever the articles, and also when an article lists the same
    name more than once, no record has its own key among its co-authors,
    as long as objects that compare unequal have different names (which is
    how the author objects of the arxiv package compare). *)
Theorem no_self_reference articles n r :
  (forall a b, ne a b = true -> name a <> name b) ->
  dict_get (aggregate articles) n = Some r ->
  n ∉ co_authors r.
Proof.
  intros Hne Hg Hself.
  assert (Hin : n ∈ coauthors_of (aggregate articles) n)
    by (unfold coauthors_of; now rewrite Hg).
  apply aggregate_coauthors in Hin as (art & _ & x & y & _ & _ & Hx & Hb & Hy).
  apply (Hne y x Hb). congruence.
Qed.

(** C2 (amended): [num_pubs] is the number of times the name is listed
    over all the articles; it is the number of articles with the name when
    no article lists a name twice. *)
Theorem num_pubs_counts_listings articles n r :
  dict_get (aggregate articles) n = Some r ->
  num_pubs r = Z.of_nat (listings n articles) /\
  ((forall article, article ∈ articles -> NoDup (map name (authors article))) ->
   num_pubs r = Z.of_nat (articles_with n articles)).
Proof.
  intros Hg.
  assert (Hp : num_pubs r = Z.of_nat (listings n articles)).
  { rewrite <- aggregate_pubs. unfold pubs_of. now rewrite Hg. }
  split; [exact Hp|]. intros Hnd. now rewrite Hp, listings_NoDup.
Qed.

(** C3 (amended): an article that is processed once more, anywhere in the
    list, adds no record and no co-author name to any record, and adds to
    each [num_pubs] the number of times the article lists the name. *)
Theorem repeated_article l1 l2 (a : Article Author) n :
  a ∈ l1 ++ l2 ->
  (is_Some (dict_get (aggregate (l1 ++ a :: l2)) n) <->
   is_Some (dict_get (aggregate (l1 ++ l2)) n)) /\
  (forall m, m ∈ coauthors_of (aggregate (l1 ++ a :: l2)) n <->
             m ∈ coauthors_of (aggregate (l1 ++ l2)) n) /\
  pubs_of (aggregate (l1 ++ a :: l2)) n =
  pubs_of (aggregate (l1 ++ l2)) n + Z.of_nat (listed n (authors a)).
Proof.
  intros Hin.
  assert (Hmem : forall x, x ∈ l1 ++ a :: l2 <-> x ∈ l1 ++ l2).
  { intros x. rewrite !elem_of_app, elem_of_cons.
    apply elem_of_app in Hin. split; [intros [?|[->|?]]|intros [?|?]]; auto. }
  split; [|split].
  - rewrite !aggregate_is_Some.
    split; intros (x & Hx & H); exists x; split; try apply Hmem; assumption.
  - intros m. rewrite !aggregate_coauthors.
    split; intros (x & Hx & H); exists x; split; try apply Hmem; assumption.
  - rewrite !aggregate_pubs, !listings_app.
    unfold listings. simpl. lia.
Qed.
End Aggregate.

(** *** Concrete runs on author objects of the arxiv package *)

Lemma arxiv_ne_names (a b : Arxiv.Author) :
  Arxiv.ne a b = true -> Arxiv.name a <> Arxiv.name b.
Proof.
  unfold Arxiv.ne. intros Hb Heq. rewrite Heq, String.eqb_refl in Hb. discriminate.
Qed.

Lemma no_self_reference_witness :
  dict_get (aggregate Arxiv.name Arxiv.ne [article_AAB; article_AB]) "A"
    = Some (mkRecord ["B"] 3) /\
  "A" ∉ co_authors (mkRecord ["B"] 3).
Proof.
  split; [vm_compute; reflexivity|].
  apply (no_self_reference Arxiv.name Arxiv.ne [article_AAB; article_AB] "A").
  - exact arxiv_ne_names.
  - vm_compute; reflexivity.
Defined.

(** Objects that compare by identity (here a number) rather than by name
    do not meet that condition: two of them with one name put the name among
    its own co-authors. *)
Remark self_reference_by_identity :
  dict_get (aggregate (snd : nat * string -> string)
                      (fun a b => negb (Nat.eqb (fst a) (fst b)))
                      [mkArticle [(1%nat, "A"); (2%nat, "A")]]) "A"
  = Some (mkRecord ["A"] 2).
Proof. vm_compute; reflexivity. Qed.

(** C2, as stated, fails on an article that lists a name twice: one article
    with A, yet [num_pubs] is 2. *)
Lemma num_pubs_not_article_count :
  ~ (forall r,
       dict_get (aggregate Arxiv.name Arxiv.ne [article_AAB]) "A" = Some r ->
       num_pubs r = Z.of_nat (articles_with Arxiv.name "A" [article_AAB])).
Proof.
  intros H. specialize (H (mkRecord ["B"] 2) eq_refl). vm_compute in H. discriminate.
Qed.

Lemma num_pubs_counts_listings_witness :
  dict_get (aggregate Arxiv.name Arxiv.ne [article_AB; article_AB]) "A"
    = Some (mkRecord ["B"] 2) /\
  num_pubs (mkRecord ["B"] 2)
    = Z.of_nat (listings Arxiv.name "A" [article_AB; article_AB]) /\
  num_pubs (mkRecord ["B"] 2)
    = Z.of_nat (articles_with Arxiv.name "A" [article_AB; article_AB]).
Proof.
  assert (Hg : dict_get (aggregate Arxiv.name Arxiv.ne [article_AB; article_AB]) "A"
               = Some (mkRecord ["B"] 2)) by (vm_compute; reflexivity).
  destruct (num_pubs_counts_listings Arxiv.name Arxiv.ne
              [article_AB; article_AB] "A" (mkRecord ["B"] 2) Hg) as [Hall Honce].
  split; [exact Hg|]. split; [exact Hall|]. apply Honce.
  intros article Hin.
  assert (article = article_AB) as ->.
  { apply elem_of_cons in Hin as [->|Hin]; [reflexivity|].
    now apply list_elem_of_singleton in Hin. }
  apply (bool_decide_unpack _). vm_compute. exact I.
Defined.

(** C3, as stated, fails on the publication count: the second pass over the
    same article changes [num_pubs] from 1 to 2. *)
Lemma second_pass_changes_num_pubs :
  ~ (forall n r1 r2,
       dict_get (aggregate Arxiv.name Arxiv.ne [article_AB]) n = Some r1 ->
       dict_get (aggregate Arxiv.name Arxiv.ne [article_AB; article_AB]) n = Some r2 ->
       num_pubs r2 = num_pubs r1).
Proof.
  intros H. specialize (H "A" (mkRecord ["B"] 1) (mkRecord ["B"] 2) eq_refl eq_refl).
  discriminate.
Qed.

Lemma repeated_article_witness :
  (is_Some (dict_get (aggregate Arxiv.name Arxiv.ne ([article_AAB] ++ article_AAB :: [article_AB])) "A") <->
   is_Some (dict_get (aggregate Arxiv.name Arxiv.ne ([article_AAB] ++ [article_AB])) "A")) /\
  (forall m, m ∈ coauthors_of (aggregate Arxiv.name Arxiv.ne ([article_AAB] ++ article_AAB :: [article_AB])) "A" <->
             m ∈ coauthors_of (aggregate Arxiv.name Arxiv.ne ([article_AAB] ++ [article_AB])) "A") /\
  pubs_of (aggregate Arxiv.name Arxiv.ne ([article_AAB] ++ article_AAB :: [article_AB])) "A" =
  pubs_of (aggregate Arxiv.name Arxiv.ne ([article_AAB] ++ [article_AB])) "A"
  + Z.of_nat (listed Arxiv.name "A" (authors article_AAB)).
Proof.
  apply (repeated_article Arxiv.name Arxiv.ne [article_AAB] [article_AB] article_AAB "A").
  simpl. left.
Defined.

End DataStructureFacts.

(** ** Sorting and maximum *)

Section SortedFacts.
Context {A : Type} (key : A -> Z).

Local Abbreviation ascending := (StronglySorted (fun x y => key x <= key y)).
Local Abbreviation descending := (StronglySorted (fun x y => key y <= key x)).
Local Abbreviation keyed k := (List.filter (fun x => key x =? k)).

Lemma insert_by_Permutation x l : insert_by key x l ≡ₚ x :: l.
Proof.
  induction l as [|y l IH]; simpl; [reflexivity|].
  destruct (key x <=? key y); [reflexivity|].
  rewrite IH. apply Permutation_swap.
Qed.

Lemma sort_by_Permutation l : sort_by key l ≡ₚ l.
Proof.
  induction l as [|x l IH]; simpl; [reflexivity|].
  now rewrite insert_by_Permutation, IH.
Qed.

Lemma insert_by_ascending x l : ascending l -> ascending (insert_by key x l).
Proof.
  induction l as [|y l IH]; simpl; intros Hl.
  - constructor; constructor.
  - apply StronglySorted_cons in Hl as [Hy Hl].
    destruct (key x <=? key y) eqn:Hxy.
    + apply Z.leb_le in Hxy. constructor; [now constructor|].
      constructor; [exact Hxy|].
      eapply Forall_impl; [exact Hy|]. simpl. intros z Hz. lia.
    + apply Z.leb_gt in Hxy. constructor; [now apply IH|].
      rewrite insert_by_Permutation. constructor; [lia | exact Hy].
Qed.

Lemma sort_by_ascending l : ascending (sort_by key l).
Proof.
  induction l as [|x l IH]; simpl; [constructor|].
  now apply insert_by_ascending.
Qed.

(** Insertion goes past strictly smaller keys only, so the items of one
    key keep their order. *)
Lemma insert_by_keyed k x l : keyed k (insert_by key x l) = keyed k (x :: l).
Proof.
  induction l as [|y l IH]; simpl; [reflexivity|].
  destruct (key x <=? key y) eqn:Hxy; [reflexivity|].
  apply Z.leb_gt in Hxy. simpl in *. rewrite IH.
  destruct (key x =? k) eqn:Hx, (key y =? k) eqn:Hy; try reflexivity.
  apply Z.eqb_eq in Hx, Hy. lia.
Qed.

Lemma sort_by_keyed k l : keyed k (sort_by key l) = keyed k l.
Proof.
  induction l as [|x l IH]; simpl; [reflexivity|].
  rewrite insert_by_keyed. simpl. now rewrite IH.
Qed.

Lemma rev_ascending l : ascending l -> descending (rev l).
Proof.
  induction l as [|x l IH]; simpl; intros Hl; [constructor|].
  apply StronglySorted_cons in Hl as [Hx Hl].
  apply StronglySorted_app_2; [|now apply IH|constructor; constructor].
  intros y z Hy ->%list_elem_of_singleton.
  rewrite Forall_forall in Hx. apply Hx.
  apply list_elem_of_In, in_rev. now apply list_elem_of_In.
Qed.

Lemma sorted_reverse_Permutation l : sorted key true l ≡ₚ l.
Proof.
  unfold sorted. now rewrite <- Permutation_rev, sort_by_Permutation, <- Permutation_rev.
Qed.

Lemma sorted_reverse_descending l : descending (sorted key true l).
Proof. unfold sorted. apply rev_ascending, sort_by_ascending. Qed.

Lemma sorted_reverse_keyed k l : keyed k (sorted key true l) = keyed k l.
Proof.
  unfold sorted. now rewrite filter_rev, sort_by_keyed, filter_rev, rev_involutive.
Qed.

(** [max] returns an item of the list whose key no other item exceeds. *)
Lemma fold_max_spec l x :
  let best := fold_left (fun best y => if key best <? key y then y else best) l x in
  best ∈ x :: l /\ (forall y, y ∈ x :: l -> key y <= key best).
Proof.
  revert x. induction l as [|z l IH]; intros x; simpl.
  - split; [left|]. intros y ->%list_elem_of_singleton. lia.
  - destruct (IH (if key x <? key z then z else x)) as [Hin Hmax].
    split.
    + apply elem_of_cons in Hin as [->|Hin].
      * destruct (key x <? key z); [right; left | left].
      * right; now right.
    + intros y Hy. destruct (key x <? key z) eqn:Hxz.
      * apply Z.ltb_lt in Hxz.
        apply elem_of_cons in Hy as [->|Hy]; [|now apply Hmax].
        assert (key z <= key (fold_left (fun best y => if key best <? key y then y else best) l z))
          by (apply Hmax; left).
        lia.
      * apply Z.ltb_ge in Hxz.
        apply elem_of_cons in Hy as [->|[->|Hy]%elem_of_cons].
        -- apply Hmax; left.
        -- assert (key x <= key (fold_left (fun best y => if key best <? key y then y else best) l x))
             by (apply Hmax; left).
           lia.
        -- apply Hmax; now right.
Qed.

Lemma py_max_spec l x :
  py_max key l = Some x -> x ∈ l /\ (forall y, y ∈ l -> key y <= key x).
Proof.
  destruct l as [|z l]; simpl; [discriminate|].
  intros [= <-]. apply fold_max_spec.
Qed.

(** Where a kept item sits in the list, given where it sits among the
    kept ones. *)
Lemma filter_split (f : A -> bool) l pre x post :
  List.filter f l = pre ++ x :: post ->
  exists l1 l2, l = l1 ++ x :: l2 /\ List.filter f l1 = pre /\ List.filter f l2 = post.
Proof.
  revert pre. induction l as [|y l IH]; intros pre; simpl.
  - destruct pre; discriminate.
  - destruct (f y) eqn:Hy.
    + destruct pre as [|p pre]; simpl.
      * intros [= -> Hl]. exists [], l. auto.
      * intros [= -> Hl]. destruct (IH pre Hl) as (l1 & l2 & -> & H1 & H2).
        exists (p :: l1), l2. simpl. rewrite Hy, H1. auto.
    + intros Hl. destruct (IH pre Hl) as (l1 & l2 & -> & H1 & H2).
      exists (y :: l1), l2. simpl. rewrite Hy. auto.
Qed.

Lemma py_max_None l : py_max key l = None <-> l = [].
Proof. destruct l; simpl; split; congruence. Qed.
End SortedFacts.

(** ** coauthor.py *)

Section ReadOnly.
Context {S : Type}.

Lemma read_only_ret {A} (a : A) : read_only (ret a : M S A).
Proof. intros s. reflexivity. Qed.

Lemma read_only_raise {A} e : read_only (raise e : M S A).
Proof. intros s. reflexivity. Qed.

Lemma read_only_get : read_only (get : M S S).
Proof. intros s. reflexivity. Qed.

Lemma read_only_bind {A B} (c : M S A) (k : A -> M S B) :
  read_only c -> (forall a, read_only (k a)) -> read_only (bind c k).
Proof.
  intros Hc Hk s. unfold bind. specialize (Hc s).
  destruct (c s) as [[a|e] s']; simpl in *; subst s'; [apply Hk | reflexivity].
Qed.

Lemma read_only_max_or_raise {A} key (l : list A) :
  read_only (max_or_raise key l : M S A).
Proof.
  unfold max_or_raise. destruct (py_max key l);
    [apply read_only_ret | apply read_only_raise].
Qed.

Lemma read_only_getitem {K V} `{EqDecision K} (d : list (K * V)) k :
  read_only (getitem d k : M S V).
Proof.
  unfold getitem. destruct (dict_get d k);
    [apply read_only_ret | apply read_only_raise].
Qed.
End ReadOnly.

Create HintDb read_only.

#[local] Hint Resolve read_only_ret read_only_raise read_only_get
  read_only_max_or_raise read_only_getitem : read_only.

Module CoauthorFacts.
Import Coauthor.

Lemma read_only_most_influential : read_only most_influential.
Proof.
  unfold most_influential. apply read_only_bind; auto with read_only.
Qed.

Lemma read_only_num_coauths_all : read_only num_coauths_all.
Proof.
  unfold num_coauths_all.
  apply read_only_bind; [auto with read_only|]; intros authors.
  apply read_only_bind; [auto with read_only|]; intros best.
  apply read_only_bind; auto with read_only.
Qed.

Lemma read_only_num_coauths target : read_only (num_coauths target).
Proof.
  unfold num_coauths.
  apply read_only_bind; [auto with read_only|]; intros authors.
  destruct (dict_get authors target); auto with read_only.
Qed.

Lemma read_only_compare_authors user : read_only (compare_authors user).
Proof.
  unfold compare_authors.
  apply read_only_bind; [apply read_only_num_coauths_all|]; intros best.
  apply read_only_bind; [apply read_only_num_coauths|]; intros n.
  repeat case_bool_decide; auto with read_only.
Qed.

Lemma read_only_most_common_coauthors : read_only most_common_coauthors.
Proof.
  unfold most_common_coauthors.
  apply read_only_bind; [auto with read_only|]; intros authors.
  apply read_only_bind; [auto with read_only|]; intros pair.
  apply read_only_bind; auto with read_only.
Qed.

(** C7: each analysis method of [AuthorComparer] leaves [self.authors], and
    so every record in it, exactly as it was, also when it raises. *)
Theorem analysis_is_read_only (authors : Authors) (user_author target_author : string) :
  snd (most_influential authors) = authors /\
  snd (compare_authors user_author authors) = authors /\
  snd (num_coauths_all authors) = authors /\
  snd (num_coauths target_author authors) = authors /\
  snd (most_common_coauthors authors) = authors.
Proof.
  split; [|split; [|split; [|split]]].
  - apply read_only_most_influential.
  - apply read_only_compare_authors.
  - apply read_only_num_coauths_all.
  - apply read_only_num_coauths.
  - apply read_only_most_common_coauthors.
Qed.

(** C9: [num_coauths] returns for every name: 0 for a name that is not a key
    of the dictionary, and the length of the co-author list for a name that
    is one. *)
Theorem num_coauths_total (authors : Authors) (target_author : string) :
  (target_author ∉ dict_keys authors ->
   fst (num_coauths target_author authors) = Returned 0) /\
  (forall data, dict_get authors target_author = Some data ->
   fst (num_coauths target_author authors)
   = Returned (Z.of_nat (length (co_authors data)))) /\
  exists n, fst (num_coauths target_author authors) = Returned n.
Proof.
  unfold num_coauths, bind, get. simpl. split; [|split].
  - intros Hk. apply dict_get_None_keys in Hk. now rewrite Hk.
  - intros data Hg. now rewrite Hg.
  - destruct (dict_get authors target_author); simpl; eauto.
Qed.

(** Two ties, each kept in the order of the dictionary. *)
Example most_influential_ties :
  fst (most_influential [("A", mkRecord [] 1); ("B", mkRecord [] 2);
                         ("C", mkRecord [] 1); ("D", mkRecord [] 2)])
  = Returned [("B", mkRecord [] 2); ("D", mkRecord [] 2);
              ("A", mkRecord [] 1); ("C", mkRecord [] 1)].
Proof. vm_compute; reflexivity. Qed.

(** C4: [most_influential] returns all the items of the dictionary, by
    decreasing [num_pubs], and the items of one [num_pubs] in the order the
    dictionary has them: of two such items, the earlier one comes first. *)
Theorem most_influential_stable (authors : Authors) :
  exists ranking,
    most_influential authors = (Returned ranking, authors) /\
    ranking ≡ₚ authors /\
    StronglySorted (fun x y => num_pubs (snd y) <= num_pubs (snd x)) ranking /\
    (forall k, List.filter (fun x => num_pubs (snd x) =? k) ranking
               = List.filter (fun x => num_pubs (snd x) =? k) authors) /\
    (forall l1 x l2 y l3,
       authors = l1 ++ x :: l2 ++ y :: l3 ->
       num_pubs (snd x) = num_pubs (snd y) ->
       exists r1 r2 r3, ranking = r1 ++ x :: r2 ++ y :: r3).
Proof.
  exists (sorted (fun x => num_pubs (snd x)) true authors).
  split; [reflexivity|]. split; [apply sorted_reverse_Permutation|].
  split; [apply sorted_reverse_descending|].
  split; [intros k; apply sorted_reverse_keyed|].
  intros l1 x l2 y l3 -> Hxy.
  pose proof (sorted_reverse_keyed (fun x => num_pubs (snd x)) (num_pubs (snd x))
                (l1 ++ x :: l2 ++ y :: l3)) as Hk.
  rewrite List.filter_app in Hk. simpl in Hk. rewrite Z.eqb_refl in Hk.
  rewrite List.filter_app in Hk. simpl in Hk.
  rewrite <- Hxy, Z.eqb_refl in Hk.
  apply filter_split in Hk as (r1 & r' & Hr & _ & Hk).
  apply filter_split in Hk as (r2 & r3 & -> & _ & _).
  eauto.
Qed.

(** C5: a line that is none of the six categories, whatever its case, is
    answered by the message and a bare return: nothing is opened, the files
    and [self.authors] stay as they were (empty, when they were empty). *)
Theorem get_articles_invalid choose (typed : string) (s : Session) :
  lower typed ∉ categories ->
  fst (get_articles choose typed s) = Returned None /\
  stdout (snd (get_articles choose typed s))
    = stdout s ++ [prompt; "Invalid category. Please try again."] /\
  opened (snd (get_articles choose typed s)) = opened s /\
  disk (snd (get_articles choose typed s)) = disk s /\
  self_authors (snd (get_articles choose typed s)) = self_authors s.
Proof.
  intros Hbad. unfold get_articles, bind, print.
  rewrite (bool_decide_eq_false_2 _ Hbad). cbn [negb fst snd ret stdout opened disk self_authors].
  rewrite <- app_assoc. auto.
Qed.

Lemma get_articles_invalid_witness :
  fst (get_articles (fun l k => firstn k l) "Biology" (mkSession [] [] [] []))
    = Returned None /\
  stdout (snd (get_articles (fun l k => firstn k l) "Biology" (mkSession [] [] [] [])))
    = [] ++ [prompt; "Invalid category. Please try again."] /\
  opened (snd (get_articles (fun l k => firstn k l) "Biology" (mkSession [] [] [] []))) = [] /\
  disk (snd (get_articles (fun l k => firstn k l) "Biology" (mkSession [] [] [] []))) = [] /\
  self_authors (snd (get_articles (fun l k => firstn k l) "Biology" (mkSession [] [] [] []))) = [].
Proof.
  apply (get_articles_invalid (fun l k => firstn k l) "Biology" (mkSession [] [] [] [])).
  apply (bool_decide_unpack _). vm_compute. exact I.
Defined.

(** The categories are in lower case already. *)
Lemma lower_category (category : string) :
  category ∈ categories -> lower category = category.
Proof.
  unfold categories. rewrite !elem_of_cons, elem_of_nil.
  intros [->|[->|[->|[->|[->|[->|[]]]]]]]; reflexivity.
Qed.

(** A valid line makes [get_articles] open the category's file, and nothing
    else; what it does next depends on what the file holds. *)
Lemma get_articles_valid choose (typed : string) (s : Session) content :
  lower typed ∈ categories ->
  dict_get (disk s)
    ("author_data/" +:+ replace " " "_" (lower typed) +:+ "_authors.json")
    = Some content ->
  opened (snd (get_articles choose typed s))
    = opened s ++ ["author_data/" +:+ replace " " "_" (lower typed) +:+ "_authors.json"] /\
  fst (get_articles choose typed s)
    = if (length content <? 50)%nat then Raised ValueError
      else Returned (Some (dict_of_items (choose content 50%nat))).
Proof.
  intros Hok Hfile. unfold get_articles, bind, print, load, random_sample.
  rewrite (bool_decide_eq_true_2 _ Hok).
  cbn [negb fst snd ret stdout opened disk self_authors]. rewrite Hfile.
  destruct (length content <? 50)%nat; cbn; auto.
Qed.

Section FlatFile.
Context {Author : Type} (name : Author -> string) (ne : Author -> Author -> bool).
Context (choose : list (string * AuthorRecord) -> nat -> list (string * AuthorRecord)).

(** C8: for each of the six categories, [extract_authors] writes the file
    [author_data/<category with _ for spaces>_authors.json], and
    [get_articles], given that category in any case, opens that very file
    and samples the dictionary written there. *)
Theorem same_file_per_category (articles : list (DataStructure.Article Author))
    (category typed : string) (d : Disk) (s : Session) :
  category ∈ categories ->
  lower typed = category ->
  disk s = snd (DataStructure.extract_authors name ne articles category d) ->
  disk s = dict_set d ("author_data/" +:+ replace " " "_" category +:+ "_authors.json")
                      (DataStructure.aggregate name ne articles) /\
  opened (snd (get_articles choose typed s))
    = opened s ++ ["author_data/" +:+ replace " " "_" category +:+ "_authors.json"] /\
  fst (get_articles choose typed s)
    = if (length (DataStructure.aggregate name ne articles) <? 50)%nat
      then Raised ValueError
      else Returned (Some (dict_of_items
                             (choose (DataStructure.aggregate name ne articles) 50%nat))).
Proof.
  intros Hcat Hlow Hdisk.
  assert (Hwritten :
    disk s = dict_set d ("author_data/" +:+ replace " " "_" category +:+ "_authors.json")
                        (DataStructure.aggregate name ne articles)) by exact Hdisk.
  split; [exact Hwritten|]. subst category.
  apply get_articles_valid; [exact Hcat|].
  rewrite Hwritten. apply dict_get_set_eq.
Qed.
End FlatFile.

Lemma same_file_per_category_witness :
  disk session_after_dump
  = dict_set [] ("author_data/" +:+ replace " " "_" "computer science" +:+ "_authors.json")
      (DataStructure.aggregate Arxiv.name Arxiv.ne [article_AB]) /\
  opened (snd (get_articles (fun l k => firstn k l) "Computer Science" session_after_dump))
  = opened session_after_dump
    ++ ["author_data/" +:+ replace " " "_" "computer science" +:+ "_authors.json"] /\
  fst (get_articles (fun l k => firstn k l) "Computer Science" session_after_dump)
  = if (length (DataStructure.aggregate Arxiv.name Arxiv.ne
                  [article_AB]) <? 50)%nat
    then Raised ValueError
    else Returned (Some (dict_of_items
           (firstn 50 (DataStructure.aggregate Arxiv.name Arxiv.ne
                         [article_AB])))).
Proof.
  apply (same_file_per_category Arxiv.name Arxiv.ne (fun l k => firstn k l)
           [article_AB] "computer science" "Computer Science" []
           session_after_dump).
  - apply (bool_decide_unpack _). vm_compute. exact I.
  - vm_compute. reflexivity.
  - reflexivity.
Defined.

(** *** The pairs counted by [most_common_coauthors] *)

Lemma ltb_asym (a b : string) : String.ltb a b = true -> String.ltb b a = false.
Proof.
  unfold String.ltb. rewrite (String.compare_antisym a b).
  destruct (String.compare b a); simpl; congruence.
Qed.

Lemma ltb_connex (a b : string) :
  String.ltb a b = false -> String.ltb b a = false -> a = b.
Proof.
  unfold String.ltb. rewrite (String.compare_antisym a b).
  destruct (String.compare b a) eqn:Hc; simpl; try congruence.
  intros _ _. symmetry. now apply String.compare_eq_iff.
Qed.

Lemma sorted_pair_comm (a b : string) : sorted_pair a b = sorted_pair b a.
Proof.
  unfold sorted_pair.
  destruct (String.ltb b a) eqn:Hba, (String.ltb a b) eqn:Hab; try reflexivity.
  - apply ltb_asym in Hba. congruence.
  - now rewrite (ltb_connex a b Hab Hba).
Qed.

Lemma sorted_pair_inv (x y a b : string) :
  sorted_pair x y = sorted_pair a b -> (x = a /\ y = b) \/ (x = b /\ y = a).
Proof.
  unfold sorted_pair.
  destruct (String.ltb y x), (String.ltb b a); intros [= -> ->]; auto.
Qed.

Lemma sorted_pair_idem (a b : string) :
  sorted_pair (fst (sorted_pair a b)) (snd (sorted_pair a b)) = sorted_pair a b.
Proof.
  unfold sorted_pair.
  destruct (String.ltb b a) eqn:Hba; simpl.
  - now rewrite (ltb_asym _ _ Hba).
  - now rewrite Hba.
Qed.

Lemma count_pair_get (a c : string) counts key :
  dict_get_int (count_pair a counts c) key =
  dict_get_int counts key + (if bool_decide (sorted_pair a c = key) then 1 else 0).
Proof.
  unfold count_pair, dict_get_int.
  destruct (dict_get counts (sorted_pair a c)) eqn:Hg; rewrite dict_get_set;
    destruct (decide (sorted_pair a c = key)) as [<-|Hne].
  - rewrite Hg, bool_decide_eq_true_2 by reflexivity. simpl. lia.
  - rewrite bool_decide_eq_false_2 by assumption. lia.
  - rewrite Hg, bool_decide_eq_true_2 by reflexivity. simpl. lia.
  - rewrite bool_decide_eq_false_2 by assumption. lia.
Qed.

Lemma count_pair_keys (a c : string) counts :
  (forall key, key ∈ dict_keys counts -> sorted_pair (fst key) (snd key) = key) ->
  forall key, key ∈ dict_keys (count_pair a counts c) ->
              sorted_pair (fst key) (snd key) = key.
Proof.
  intros Hinv key. unfold count_pair.
  destruct (dict_get counts (sorted_pair a c)) eqn:Hg; rewrite dict_keys_set, Hg.
  - apply Hinv.
  - rewrite elem_of_app, list_elem_of_singleton.
    intros [Hk| ->]; [now apply Hinv | apply sorted_pair_idem].
Qed.

Lemma inner_pairs_get (a : string) cs counts key :
  dict_get_int (fold_left (count_pair a) cs counts) key =
  dict_get_int counts key + Z.of_nat (tally key (map (fun c => (a, c)) cs)).
Proof.
  revert counts. induction cs as [|c cs IH]; intros counts; simpl.
  - unfold tally. simpl. lia.
  - rewrite IH, count_pair_get. unfold tally. simpl.
    destruct (bool_decide (sorted_pair a c = key)); simpl; lia.
Qed.

Lemma inner_pairs_keys (a : string) cs counts :
  (forall key, key ∈ dict_keys counts -> sorted_pair (fst key) (snd key) = key) ->
  forall key, key ∈ dict_keys (fold_left (count_pair a) cs counts) ->
              sorted_pair (fst key) (snd key) = key.
Proof.
  revert counts. induction cs as [|c cs IH]; intros counts Hinv; simpl.
  - exact Hinv.
  - apply IH. now apply count_pair_keys.
Qed.

Lemma tally_app key ms1 ms2 :
  tally key (ms1 ++ ms2) = (tally key ms1 + tally key ms2)%nat.
Proof. unfold tally. now rewrite List.filter_app, length_app. Qed.

Lemma count_pairs_get (authors : Authors) key :
  dict_get_int (count_pairs authors) key = Z.of_nat (tally key (mentions authors)).
Proof.
  unfold count_pairs.
  assert (Hgen : forall counts,
    dict_get_int (fold_left (fun counts item =>
        fold_left (count_pair (fst item)) (co_authors (snd item)) counts)
      authors counts) key
    = dict_get_int counts key + Z.of_nat (tally key (mentions authors))).
  { induction authors as [|item authors IH]; intros counts; simpl.
    - unfold tally. simpl. lia.
    - rewrite IH, inner_pairs_get, tally_app. lia. }
  rewrite Hgen. unfold dict_get_int. simpl. lia.
Qed.

Lemma count_pairs_keys (authors : Authors) key :
  key ∈ dict_keys (count_pairs authors) -> sorted_pair (fst key) (snd key) = key.
Proof.
  unfold count_pairs.
  assert (Hgen : forall counts,
    (forall key, key ∈ dict_keys counts -> sorted_pair (fst key) (snd key) = key) ->
    forall key, key ∈ dict_keys (fold_left (fun counts item =>
        fold_left (count_pair (fst item)) (co_authors (snd item)) counts)
      authors counts) -> sorted_pair (fst key) (snd key) = key).
  { induction authors as [|item authors IH]; intros counts Hinv; simpl.
    - exact Hinv.
    - apply IH. now apply inner_pairs_keys. }
  apply Hgen. intros k Hk. now apply elem_of_nil in Hk.
Qed.

Lemma tally_two_directions (a b : string) ms :
  a <> b ->
  tally (sorted_pair a b) ms = (occurrences (a, b) ms + occurrences (b, a) ms)%nat.
Proof.
  intros Hab. unfold tally, occurrences.
  induction ms as [|[x y] ms IH]; simpl; [reflexivity|].
  destruct (decide ((x, y) = (a, b))) as [[= -> ->]|Hxy1].
  - rewrite !bool_decide_eq_true_2 by reflexivity.
    rewrite (bool_decide_eq_false_2 ((a, b) = (b, a))) by congruence.
    simpl. now rewrite IH.
  - rewrite (bool_decide_eq_false_2 _ Hxy1).
    destruct (decide ((x, y) = (b, a))) as [[= -> ->]|Hxy2].
    + rewrite bool_decide_eq_true_2 by apply sorted_pair_comm.
      rewrite bool_decide_eq_true_2 by reflexivity. simpl. rewrite IH. lia.
    + rewrite (bool_decide_eq_false_2 _ Hxy2).
      rewrite bool_decide_eq_false_2; [exact IH|].
      intros [[-> ->]|[-> ->]]%sorted_pair_inv; congruence.
Qed.

Lemma tally_same (a : string) ms :
  tally (sorted_pair a a) ms = occurrences (a, a) ms.
Proof.
  unfold tally, occurrences.
  induction ms as [|[x y] ms IH]; simpl; [reflexivity|].
  destruct (decide ((x, y) = (a, a))) as [[= -> ->]|Hxy].
  - rewrite !bool_decide_eq_true_2 by reflexivity. simpl. now rewrite IH.
  - rewrite (bool_decide_eq_false_2 _ Hxy).
    rewrite bool_decide_eq_false_2; [exact IH|].
    intros [[-> ->]|[-> ->]]%sorted_pair_inv; congruence.
Qed.

Lemma occurrences_listed (k a b : string) cs :
  occurrences (a, b) (map (fun c => (k, c)) cs) =
  if decide (k = a) then length (List.filter (fun c => bool_decide (c = b)) cs) else 0%nat.
Proof.
  unfold occurrences. induction cs as [|c cs IH]; simpl.
  - now destruct (decide (k = a)).
  - destruct (decide (k = a)) as [->|Hk].
    + destruct (decide (c = b)) as [->|Hc].
      * rewrite !bool_decide_eq_true_2 by reflexivity. simpl. now rewrite IH.
      * rewrite (bool_decide_eq_false_2 ((a, c) = (a, b))) by congruence.
        now rewrite (bool_decide_eq_false_2 _ Hc).
    + now rewrite (bool_decide_eq_false_2 ((k, c) = (a, b))) by congruence.
Qed.

Lemma occurrences_app p ms1 ms2 :
  occurrences p (ms1 ++ ms2) = (occurrences p ms1 + occurrences p ms2)%nat.
Proof. unfold occurrences. now rewrite List.filter_app, length_app. Qed.

(** In a dictionary, the pairs met for [a] are those of the one record
    stored under [a]. *)
Lemma occurrences_mentions (authors : Authors) (a b : string) :
  dict_wf authors ->
  occurrences (a, b) (mentions authors) = mentions_of authors a b.
Proof.
  unfold dict_wf, dict_keys, mentions_of, coauthors_of.
  induction authors as [|[k r] authors IH]; simpl; [reflexivity|].
  intros [Hfresh Hwf]%NoDup_cons.
  rewrite occurrences_app, occurrences_listed, (IH Hwf).
  destruct (decide (k = a)) as [->|Hk]; [|reflexivity].
  apply dict_get_None_keys in Hfresh. rewrite Hfresh. simpl. lia.
Qed.

(** The returned count is the largest in [coauthor_counts]. *)
Lemma most_common_coauthors_max (authors : Authors) pair count :
  fst (most_common_coauthors authors) = Returned (pair, count) ->
  dict_get (count_pairs authors) pair = Some count /\
  forall other, other ∈ dict_keys (count_pairs authors) ->
                dict_get_int (count_pairs authors) other <= count.
Proof.
  unfold most_common_coauthors, bind, get, max_or_raise, getitem. simpl.
  destruct (py_max _ _) as [best|] eqn:Hmax; simpl; [|discriminate].
  destruct (dict_get (count_pairs authors) best) as [c|] eqn:Hg; simpl; [|discriminate].
  intros [= <- <-]. split; [exact Hg|].
  apply py_max_spec in Hmax as [_ Hmax]. intros other Hin.
  specialize (Hmax other Hin). unfold dict_get_int in Hmax at 2.
  now rewrite Hg in Hmax.
Qed.

(** C10: the two loops file [b] met in the list of [a] and [a] met in the
    list of [b] under one key, so that the count under the key of two
    different names, and with it the count returned with a pair, is the sum
    of both directions (for a pair of one name twice, its one direction). *)
Theorem pair_counts_symmetric (authors : Authors) (a b : string) :
  dict_wf authors ->
  sorted_pair a b = sorted_pair b a /\
  (a <> b ->
   dict_get_int (count_pairs authors) (sorted_pair a b)
   = Z.of_nat (mentions_of authors a b + mentions_of authors b a)) /\
  (forall count,
     fst (most_common_coauthors authors) = Returned (a, b, count) ->
     count = Z.of_nat (if decide (a = b) then mentions_of authors a a
                       else mentions_of authors a b + mentions_of authors b a)).
Proof.
  intros Hwf.
  assert (Hsum : a <> b ->
    dict_get_int (count_pairs authors) (sorted_pair a b)
    = Z.of_nat (mentions_of authors a b + mentions_of authors b a)).
  { intros Hab. rewrite count_pairs_get, tally_two_directions by exact Hab.
    now rewrite !occurrences_mentions. }
  split; [apply sorted_pair_comm|]. split; [exact Hsum|].
  intros count [Hg _]%most_common_coauthors_max.
  assert (Hkey : sorted_pair a b = (a, b)).
  { apply (count_pairs_keys authors (a, b)).
    apply dict_get_None_keys_neg. now rewrite Hg. }
  assert (Hcount : dict_get_int (count_pairs authors) (sorted_pair a b) = count).
  { rewrite Hkey. unfold dict_get_int. now rewrite Hg. }
  destruct (decide (a = b)) as [->|Hab].
  - rewrite count_pairs_get, tally_same, occurrences_mentions in Hcount by exact Hwf.
    congruence.
  - rewrite Hsum in Hcount by exact Hab. congruence.
Qed.

Lemma pair_counts_symmetric_witness :
  dict_wf authors_AB /\
  sorted_pair "A" "B" = sorted_pair "B" "A" /\
  dict_get_int (count_pairs authors_AB) (sorted_pair "A" "B")
    = Z.of_nat (mentions_of authors_AB "A" "B" + mentions_of authors_AB "B" "A") /\
  2 = Z.of_nat (mentions_of authors_AB "A" "B" + mentions_of authors_AB "B" "A").
Proof.
  assert (Hwf : dict_wf authors_AB)
    by (apply (bool_decide_unpack _); vm_compute; exact I).
  destruct (pair_counts_symmetric authors_AB "A" "B" Hwf) as (Hkey & Hsum & Hret).
  split; [exact Hwf|]. split; [exact Hkey|]. split.
  - apply Hsum. discriminate.
  - apply (Hret 2). vm_compute. reflexivity.
Defined.

(** C6: the count returned with the pair is not the number of articles the
    two wrote together.  A and B have one article, their only one, and the
    pair comes back with 2, one for each of the two co-author lists; and a
    dictionary without any co-author makes [max] raise. *)
Theorem most_common_coauthors_miscounts :
  DataStructure.aggregate Arxiv.name Arxiv.ne [article_AB] = authors_AB /\
  fst (most_common_coauthors authors_AB) = Returned ("A", "B", 2) /\
  fst (most_common_coauthors [("A", mkRecord [] 1)]) = Raised ValueError.
Proof. split; [|split]; vm_compute; reflexivity. Qed.

End CoauthorFacts.

(** * Further properties of the code *)

(** ** Dictionaries built by repeated assignment *)

Section PyDictBuild.
Context {K V : Type} `{EqDecision K}.
Implicit Types (d : list (K * V)) (k : K) (v : V).

Lemma dict_set_fresh d k v : dict_get d k = None -> dict_set d k v = d ++ [(k, v)].
Proof.
  induction d as [|[k0 v0] d IH]; simpl; [reflexivity|].
  destruct (decide (k0 = k)); [discriminate|].
  intros Hg. now rewrite IH.
Qed.

Lemma dict_keys_app d1 d2 : dict_keys (d1 ++ d2) = dict_keys d1 ++ dict_keys d2.
Proof. unfold dict_keys. apply map_app. Qed.

(** Assigning the items of a dictionary one by one to a dictionary that has
    none of their keys appends them in their order. *)
Lemma fold_dict_set_fresh {X} (key : X -> K) (val : X -> V) (items : list X) d :
  NoDup (dict_keys d ++ map key items) ->
  fold_left (fun acc x => dict_set acc (key x) (val x)) items d
  = d ++ map (fun x => (key x, val x)) items.
Proof.
  revert d. induction items as [|x items IH]; intros d Hnd; simpl.
  - now rewrite app_nil_r.
  - assert (Hfresh : dict_get d (key x) = None).
    { apply dict_get_None_keys. apply NoDup_app in Hnd as (_ & Hdis & _).
      intros Hin. apply (Hdis _ Hin). left. }
    rewrite (dict_set_fresh _ _ _ Hfresh), IH.
    + now rewrite <- app_assoc.
    + rewrite dict_keys_app. simpl. now rewrite <- app_assoc.
Qed.

Lemma dict_of_items_wf (items : list (K * V)) :
  dict_wf items -> dict_of_items items = items.
Proof.
  intros Hwf. unfold dict_of_items.
  rewrite (fold_dict_set_fresh fst snd) by exact Hwf.
  simpl. induction items as [|[k v] items IH]; simpl; [reflexivity|].
  f_equal. apply IH. now apply NoDup_cons in Hwf as [_ Hwf].
Qed.

Lemma dict_get_is_Some_keys d k : is_Some (dict_get d k) <-> k ∈ dict_keys d.
Proof.
  split.
  - intros [v Hv]. apply dict_get_None_keys_neg. congruence.
  - intros Hin. destruct (dict_get d k) eqn:Hg; [eauto|].
    now apply dict_get_None_keys in Hg.
Qed.
End PyDictBuild.

(** ** DataStructure.py *)

Module DataStructureMore.
Import DataStructure DataStructureFacts.

Lemma total_pubs_set (d : list (string * AuthorRecord)) (k : string) (r : AuthorRecord) :
  total_pubs (dict_set d k r) = total_pubs d - pubs_of d k + num_pubs r.
Proof.
  unfold pubs_of. induction d as [|[k0 r0] d IH]; simpl; [lia|].
  destruct (decide (k0 = k)); simpl; lia.
Qed.

Lemma elem_of_rev_iff {A} (l : list A) (x : A) : x ∈ rev l <-> x ∈ l.
Proof. rewrite !list_elem_of_In. symmetry. apply in_rev. Qed.

Lemma fold_add_first_seen (l : list string) :
  fold_left (fun keys n => if bool_decide (n ∈ keys) then keys else keys ++ [n]) l []
  = first_seen l.
Proof.
  unfold first_seen. induction l as [|n l IH] using rev_ind; [reflexivity|].
  rewrite fold_left_app, rev_app_distr. cbn [fold_left rev app]. rewrite IH.
  assert (Hmem : n ∈ rev (remove_dups (rev l)) <-> n ∈ rev l).
  { rewrite elem_of_rev_iff. apply elem_of_remove_dups. }
  cbn [remove_dups].
  destruct (decide_rel elem_of n (rev l)) as [Hin|Hout].
  - now rewrite bool_decide_eq_true_2 by (apply Hmem; exact Hin).
  - rewrite bool_decide_eq_false_2 by (intros Hn; apply Hout, Hmem; exact Hn).
    reflexivity.
Qed.

Section AggregateMore.
Context {Author : Type} (name : Author -> string) (ne : Author -> Author -> bool).
Implicit Types (d : list (string * AuthorRecord)) (n m : string)
  (articles : list (Article Author)).

Local Abbreviation visit_author := (visit_author name ne).
Local Abbreviation visit_article := (visit_article name ne).
Local Abbreviation aggregate := (aggregate name ne).
Local Abbreviation add_new :=
  (fun (keys : list string) n => if bool_decide (n ∈ keys) then keys else keys ++ [n]).

Lemma visit_author_keys al d a :
  dict_keys (visit_author al d a) = add_new (dict_keys d) (name a).
Proof.
  unfold DataStructure.visit_author.
  destruct (dict_get d (name a)) eqn:Hg; rewrite dict_keys_set, Hg.
  - rewrite bool_decide_eq_true_2; [reflexivity|].
    apply dict_get_None_keys_neg. congruence.
  - rewrite bool_decide_eq_false_2; [reflexivity|].
    now apply dict_get_None_keys.
Qed.

Lemma outer_loop_keys articles d :
  dict_keys (fold_left visit_article articles d)
  = fold_left add_new (all_names name articles) (dict_keys d).
Proof.
  revert d. induction articles as [|art articles IH]; intros d; simpl; [reflexivity|].
  rewrite IH, fold_left_app. f_equal.
  unfold DataStructure.visit_article.
  generalize (authors art) at 1 as al. intros al.
  revert d. induction (authors art) as [|a l IHl]; intros d; simpl; [reflexivity|].
  now rewrite IHl, visit_author_keys.
Qed.

(** X1: the dictionary has a record for a name exactly when some article
    lists an author of that name. *)
Theorem record_iff_listed articles n :
  is_Some (dict_get (aggregate articles) n) <->
  exists article a, article ∈ articles /\ a ∈ authors article /\ name a = n.
Proof.
  rewrite aggregate_is_Some. split.
  - intros (art & Hart & (a & Ha & Hn)%elem_of_map). eauto.
  - intros (art & a & Hart & Ha & Hn). exists art. split; [exact Hart|].
    apply elem_of_map. eauto.
Qed.

Lemma aggregate_keys articles :
  dict_keys (aggregate articles) = first_seen (all_names name articles).
Proof.
  unfold DataStructure.aggregate. rewrite outer_loop_keys. apply fold_add_first_seen.
Qed.

Lemma aggregate_wf articles : dict_wf (aggregate articles).
Proof.
  unfold dict_wf. rewrite aggregate_keys. unfold first_seen.
  apply NoDup_ListNoDup, List.NoDup_rev, NoDup_ListNoDup, NoDup_remove_dups.
Qed.

(** X2: the keys of the dictionary, and so the entries of the dumped file,
    are the distinct names in the order of their first listing. *)
Theorem keys_in_order_of_first_listing articles :
  dict_keys (aggregate articles) = first_seen (all_names name articles) /\
  dict_wf (aggregate articles).
Proof.
  split; [apply aggregate_keys|].
  unfold dict_wf. rewrite aggregate_keys. unfold first_seen.
  apply NoDup_ListNoDup, List.NoDup_rev, NoDup_ListNoDup, NoDup_remove_dups.
Qed.

Lemma visit_author_counted al d a :
  counted_and_deduplicated d -> counted_and_deduplicated (visit_author al d a).
Proof.
  intros Hinv n r. destruct (decide (name a = n)) as [<-|Hne].
  - unfold DataStructure.visit_author.
    destruct (dict_get d (name a)) as [r0|] eqn:Hg; rewrite dict_get_set_eq;
      intros [= <-]; simpl.
    + destruct (Hinv _ _ Hg) as [Hpos _]. split; [lia|].
      intros _. apply NoDup_list_set.
    + split; lia.
  - rewrite visit_author_other by exact Hne. apply Hinv.
Qed.

Lemma outer_loop_counted articles d :
  counted_and_deduplicated d ->
  counted_and_deduplicated (fold_left visit_article articles d).
Proof.
  revert d. induction articles as [|art articles IH]; intros d Hinv; simpl;
    [exact Hinv|].
  apply IH. unfold DataStructure.visit_article.
  generalize (authors art) at 1 as al. intros al.
  revert d Hinv. induction (authors art) as [|a l IHl]; intros d Hinv; simpl;
    [exact Hinv|].
  apply IHl. now apply visit_author_counted.
Qed.

(** X3: every record has [num_pubs] at least 1, and the co-author list of
    a record with [num_pubs] 2 or more has no name twice. *)
Theorem records_counted_and_deduplicated articles n r :
  dict_get (aggregate articles) n = Some r ->
  1 <= num_pubs r /\ (2 <= num_pubs r -> NoDup (co_authors r)).
Proof.
  apply (outer_loop_counted articles []). intros n' r' [=].
Qed.

(** X4: when [!=] is symmetric, so is co-authorship: [m] is among the
    co-authors of [n] exactly when [n] is among those of [m]. *)
Theorem coauthorship_symmetric articles n m :
  (forall a b, ne a b = ne b a) ->
  m ∈ coauthors_of (aggregate articles) n <-> n ∈ coauthors_of (aggregate articles) m.
Proof.
  intros Hsym. rewrite !aggregate_coauthors.
  split; intros (art & Hart & x & y & Hx & Hy & Hn & Hb & Hm);
    exists art; (split; [exact Hart|]); exists y, x;
    rewrite (Hsym x y); auto.
Qed.

(** X5: the co-authors stored for [n] are exactly the names listed, in some
    article, by an object that compares unequal to one listed under [n]. *)
Theorem coauthors_characterised articles n r m :
  dict_get (aggregate articles) n = Some r ->
  m ∈ co_authors r <->
  exists article x y,
    article ∈ articles /\ x ∈ authors article /\ y ∈ authors article /\
    name x = n /\ ne y x = true /\ name y = m.
Proof.
  intros Hg.
  assert (Hco : co_authors r = coauthors_of (aggregate articles) n)
    by (unfold coauthors_of; now rewrite Hg).
  rewrite Hco, aggregate_coauthors. unfold beside.
  split.
  - intros (art & Hart & x & y & H). exists art, x, y. tauto.
  - intros (art & x & y & Hart & H). exists art. split; [exact Hart|].
    exists x, y. exact H.
Qed.

Lemma visit_author_total al d a :
  total_pubs (visit_author al d a) = total_pubs d + 1.
Proof.
  unfold DataStructure.visit_author.
  destruct (dict_get d (name a)) as [r|] eqn:Hg; rewrite total_pubs_set;
    unfold pubs_of; rewrite Hg; simpl; lia.
Qed.

(** X6: the [num_pubs] of all the records add up to the number of
    listings, that is, to the lengths of the author lists of all the
    articles. *)
Theorem num_pubs_add_up articles :
  total_pubs (aggregate articles)
  = Z.of_nat (length (flat_map authors articles)).
Proof.
  unfold DataStructure.aggregate.
  assert (Hgen : forall d,
    total_pubs (fold_left visit_article articles d)
    = total_pubs d + Z.of_nat (length (flat_map authors articles))).
  { induction articles as [|art articles IH]; intros d; simpl; [lia|].
    rewrite IH, length_app. unfold DataStructure.visit_article.
    assert (Hin : forall al l d0,
      total_pubs (fold_left (visit_author al) l d0)
      = total_pubs d0 + Z.of_nat (length l)).
    { intros al l. induction l as [|a l IHl]; intros d0; simpl; [lia|].
      rewrite IHl, visit_author_total. lia. }
    rewrite Hin. lia. }
  rewrite Hgen. simpl. lia.
Qed.
End AggregateMore.

Lemma file_of_inj (c c' : string) :
  c ∈ categories -> c' ∈ categories -> file_of c = file_of c' -> c = c'.
Proof.
  unfold categories. rewrite !elem_of_cons, !elem_of_nil.
  intros [->|[->|[->|[->|[->|[->|[]]]]]]] [->|[->|[->|[->|[->|[->|[]]]]]]];
    first [reflexivity | intros H; vm_compute in H; discriminate].
Qed.

Section MainFacts.
Context {Author : Type} (name : Author -> string) (ne : Author -> Author -> bool).
Context (fetch : string -> list (Article Author)).

Local Abbreviation main_step := (main_step name ne fetch).

Lemma main_step_disk st c :
  fst (main_step st c) = dict_set (fst st) (file_of c) (aggregate name ne (fetch c)).
Proof. reflexivity. Qed.

Lemma main_loop_other cs st path :
  (forall c, c ∈ cs -> path <> file_of c) ->
  dict_get (fst (fold_left main_step cs st)) path = dict_get (fst st) path.
Proof.
  revert st. induction cs as [|c0 cs IH]; intros st Hother; simpl; [reflexivity|].
  rewrite IH by (intros c Hc; apply Hother; now right).
  rewrite main_step_disk. apply dict_get_set_ne.
  intros Heq. apply (Hother c0); [left | now symmetry].
Qed.

Lemma main_loop_file cs st c :
  (forall c1 c2, c1 ∈ cs -> c2 ∈ cs -> file_of c1 = file_of c2 -> c1 = c2) ->
  c ∈ cs ->
  dict_get (fst (fold_left main_step cs st)) (file_of c)
  = Some (aggregate name ne (fetch c)).
Proof.
  revert st. induction cs as [|c0 cs IH]; intros st Hinj Hc; simpl.
  - now apply elem_of_nil in Hc.
  - destruct (decide (c ∈ cs)) as [Hin|Hout].
    + apply IH; [|exact Hin]. intros c1 c2 H1 H2. apply Hinj; now right.
    + apply elem_of_cons in Hc as [->|Hc]; [|contradiction].
      rewrite main_loop_other.
      * rewrite main_step_disk. apply dict_get_set_eq.
      * intros c Hc Heq. apply Hout.
        rewrite (Hinj c0 c); [exact Hc | left | now right | exact Heq].
Qed.


End MainFacts.

Lemma arxiv_ne_sym (a b : Arxiv.Author) : Arxiv.ne a b = Arxiv.ne b a.
Proof. unfold Arxiv.ne. now rewrite String.eqb_sym. Qed.

Lemma records_counted_and_deduplicated_witness :
  dict_get (aggregate Arxiv.name Arxiv.ne [article_AAB; article_AB]) "B"
    = Some (mkRecord ["A"] 2) /\
  1 <= num_pubs (mkRecord ["A"] 2) /\
  NoDup (co_authors (mkRecord ["A"] 2)).
Proof.
  assert (Hg : dict_get (aggregate Arxiv.name Arxiv.ne [article_AAB; article_AB]) "B"
               = Some (mkRecord ["A"] 2)) by (vm_compute; reflexivity).
  destruct (records_counted_and_deduplicated Arxiv.name Arxiv.ne
              [article_AAB; article_AB] "B" _ Hg) as [Hpos Hnd].
  split; [exact Hg|]. split; [exact Hpos|]. apply Hnd. simpl. lia.
Defined.

Lemma coauthorship_symmetric_witness :
  "B" ∈ coauthors_of (aggregate Arxiv.name Arxiv.ne [article_AAB; article_AB]) "A" <->
  "A" ∈ coauthors_of (aggregate Arxiv.name Arxiv.ne [article_AAB; article_AB]) "B".
Proof.
  apply (coauthorship_symmetric Arxiv.name Arxiv.ne [article_AAB; article_AB] "A" "B").
  exact arxiv_ne_sym.
Defined.

Lemma coauthors_characterised_witness :
  "B" ∈ co_authors (mkRecord ["B"] 3) <->
  exists article x y,
    article ∈ [article_AAB; article_AB] /\ x ∈ authors article /\ y ∈ authors article /\
    Arxiv.name x = "A" /\ Arxiv.ne y x = true /\ Arxiv.name y = "B".
Proof.
  apply (coauthors_characterised Arxiv.name Arxiv.ne [article_AAB; article_AB] "A").
  vm_compute; reflexivity.
Defined.

End DataStructureMore.

(** ** The tie-break of [max] *)

Section MaxFirst.
Context {A : Type} (key : A -> Z).

Local Abbreviation step := (fun best y => if key best <? key y then y else best).

Lemma fold_max_first l pre x mid :
  (forall y, y ∈ pre -> key y < key x) ->
  (forall y, y ∈ mid -> key y <= key x) ->
  exists l1 l2,
    pre ++ x :: mid ++ l = l1 ++ fold_left step l x :: l2 /\
    (forall y, y ∈ l1 -> key y < key (fold_left step l x)) /\
    (forall y, y ∈ l2 -> key y <= key (fold_left step l x)).
Proof.
  revert pre x mid. induction l as [|z l IH]; intros pre x mid Hpre Hmid; simpl.
  - exists pre, mid. rewrite app_nil_r. auto.
  - destruct (key x <? key z) eqn:Hxz.
    + apply Z.ltb_lt in Hxz.
      destruct (IH (pre ++ x :: mid) z []) as (l1 & l2 & Heq & H1 & H2).
      * intros y [Hy|[->|Hy]%elem_of_cons]%elem_of_app.
        -- specialize (Hpre y Hy). lia.
        -- exact Hxz.
        -- specialize (Hmid y Hy). lia.
      * intros y Hy. now apply elem_of_nil in Hy.
      * exists l1, l2. split; [|auto]. rewrite <- Heq. simpl.
        now rewrite <- app_assoc.
    + apply Z.ltb_ge in Hxz.
      destruct (IH pre x (mid ++ [z])) as (l1 & l2 & Heq & H1 & H2).
      * exact Hpre.
      * intros y [Hy| ->%list_elem_of_singleton]%elem_of_app; auto.
      * exists l1, l2. split; [|auto]. rewrite <- Heq.
        now rewrite <- app_assoc.
Qed.

(** [max] returns the first of the items with the largest key. *)
Lemma py_max_first l x :
  py_max key l = Some x ->
  exists l1 l2,
    l = l1 ++ x :: l2 /\
    (forall y, y ∈ l1 -> key y < key x) /\
    (forall y, y ∈ l2 -> key y <= key x).
Proof.
  destruct l as [|z l]; simpl; [discriminate|]. intros [= <-].
  destruct (fold_max_first l [] z []) as (l1 & l2 & Heq & H1 & H2).
  - intros y Hy. now apply elem_of_nil in Hy.
  - intros y Hy. now apply elem_of_nil in Hy.
  - exists l1, l2. auto.
Qed.
End MaxFirst.

(** ** The first items of a ranking *)

Section TopOfRanking.
Context {A : Type} (key : A -> Z).

Lemma top_of_sorted (l : list A) (n : nat) :
  exists charted rest,
    sorted key true l = charted ++ rest /\
    charted = firstn n (sorted key true l) /\
    charted ++ rest ≡ₚ l /\
    length charted = Nat.min n (length l) /\
    StronglySorted (fun x y => key y <= key x) charted /\
    (forall x y, x ∈ charted -> y ∈ rest -> key y <= key x).
Proof.
  exists (firstn n (sorted key true l)), (skipn n (sorted key true l)).
  pose proof (sorted_reverse_descending key l) as Hdesc.
  rewrite <- (firstn_skipn n (sorted key true l)) in Hdesc.
  apply StronglySorted_app in Hdesc as (Hcross & Htop & _).
  rewrite firstn_skipn. split; [reflexivity|]. split; [reflexivity|].
  split; [apply sorted_reverse_Permutation|]. split; [|auto].
  rewrite length_firstn. f_equal.
  apply Permutation_length, sorted_reverse_Permutation.
Qed.
End TopOfRanking.

(** ** coauthor.py *)

Module CoauthorMore.
Import Coauthor CoauthorFacts.

(** *** [ArticleAnalyzer.get_articles] on a valid category *)

Section GetArticlesMore.
Context (choose : list (string * AuthorRecord) -> nat -> list (string * AuthorRecord)).

(** X8: when the file of the category is missing, [get_articles] raises
    [FileNotFoundError] for that file after the prompt; [self.authors] and
    the files are as before. *)
Theorem get_articles_missing_file (typed : string) (s : Session) :
  lower typed ∈ categories ->
  dict_get (disk s) (file_of (lower typed)) = None ->
  get_articles choose typed s
  = (Raised (FileNotFoundError (file_of (lower typed))),
     mkSession (self_authors s) (disk s) (stdout s ++ [prompt]) (opened s)).
Proof.
  intros Hok Hfile. unfold get_articles, bind, print, load.
  rewrite (bool_decide_eq_true_2 _ Hok).
  cbn [negb fst snd ret stdout opened disk self_authors].
  unfold file_of in Hfile. now rewrite Hfile.
Qed.

(** X9: when the file holds fewer than 50 authors, [random.sample] raises
    [ValueError]: the file has been opened, and [self.authors] is as
    before. *)
Theorem get_articles_small_file (typed : string) (s : Session) content :
  lower typed ∈ categories ->
  dict_get (disk s) (file_of (lower typed)) = Some content ->
  (length content < 50)%nat ->
  get_articles choose typed s
  = (Raised ValueError,
     mkSession (self_authors s) (disk s) (stdout s ++ [prompt])
               (opened s ++ [file_of (lower typed)])).
Proof.
  intros Hok Hfile Hshort. unfold get_articles, bind, print, load, random_sample.
  rewrite (bool_decide_eq_true_2 _ Hok).
  cbn [negb fst snd ret stdout opened disk self_authors].
  unfold file_of in Hfile. rewrite Hfile.
  apply Nat.ltb_lt in Hshort. now rewrite Hshort.
Qed.

(** The run of [get_articles] on a file that is large enough. *)
Lemma get_articles_run_sample (typed : string) (s : Session) content :
  (forall l k, (k <= length l)%nat ->
     length (choose l k) = k /\ choose l k ⊆+ l) ->
  lower typed ∈ categories ->
  dict_get (disk s) (file_of (lower typed)) = Some content ->
  dict_wf content ->
  (50 <= length content)%nat ->
  get_articles choose typed s
  = (Returned (Some (choose content 50%nat)),
     mkSession (choose content 50%nat) (disk s) (stdout s ++ [prompt])
               (opened s ++ [file_of (lower typed)])) /\
  dict_wf (choose content 50%nat) /\
  forall n r, dict_get (choose content 50%nat) n = Some r -> dict_get content n = Some r.
Proof.
  intros Hchoose Hok Hfile Hwf Hlong.
  destruct (Hchoose content 50%nat Hlong) as [Hlen Hsub].
  assert (Hkeys : dict_wf (choose content 50%nat)).
  { unfold dict_wf, dict_keys in *.
    assert (Hmap : forall l : list (string * AuthorRecord), map fst l = fst <$> l)
      by (intros l; induction l as [|x l IHl]; [reflexivity|];
          cbn; now rewrite <- IHl).
    rewrite !Hmap in *.
    apply (fmap_submseteq fst), submseteq_Permutation in Hsub as [rest Hperm].
    rewrite Hperm in Hwf. now apply NoDup_app in Hwf as [Hwf _]. }
  split; [|split; [exact Hkeys|]].
  - unfold get_articles, bind, print, load, random_sample, set_authors.
    rewrite (bool_decide_eq_true_2 _ Hok).
    cbn [negb fst snd ret stdout opened disk self_authors].
    unfold file_of in Hfile. rewrite Hfile.
    apply Nat.ltb_ge in Hlong. rewrite Hlong.
    cbn [fst snd ret self_authors disk stdout opened].
    now rewrite (dict_of_items_wf _ Hkeys).
  - intros n r Hg. apply dict_get_elem; [exact Hwf|].
    apply dict_get_Some_elem in Hg.
    eapply elem_of_submseteq; [exact Hg | exact Hsub].
Qed.

(** X10: when the file holds a dictionary of 50 authors or more, and
    [random.sample] returns, as it does, that many of the items it is given,
    [get_articles] returns a dictionary of exactly 50 records, each of them
    the record the file has under that name, and stores it in
    [self.authors]. *)
Theorem get_articles_sample (typed : string) (s : Session) content :
  (forall l k, (k <= length l)%nat ->
     length (choose l k) = k /\ choose l k ⊆+ l) ->
  lower typed ∈ categories ->
  dict_get (disk s) (file_of (lower typed)) = Some content ->
  dict_wf content ->
  (50 <= length content)%nat ->
  exists articles,
    fst (get_articles choose typed s) = Returned (Some articles) /\
    self_authors (snd (get_articles choose typed s)) = articles /\
    length articles = 50%nat /\
    dict_wf articles /\
    forall n r, dict_get articles n = Some r -> dict_get content n = Some r.
Proof.
  intros Hchoose Hok Hfile Hwf Hlong.
  destruct (get_articles_run_sample typed s content Hchoose Hok Hfile Hwf Hlong)
    as (Hrun & Hkeys & Hsame).
  exists (choose content 50%nat). rewrite Hrun. cbn [fst snd self_authors].
  split; [reflexivity|]. split; [reflexivity|].
  split; [apply (Hchoose content 50%nat Hlong)|]. auto.
Qed.
End GetArticlesMore.

(** *** [AuthorComparer.num_coauths_all] and [compare_authors] *)

(** The dictionary [author_coauthors] of [num_coauths_all]. *)
Lemma author_coauthors_wf (authors : Authors) :
  dict_wf authors ->
  fold_left (fun acc item => dict_set acc (fst item) (len (co_authors (snd item))))
            authors []
  = map (fun item => (fst item, len (co_authors (snd item)))) authors.
Proof.
  intros Hwf.
  now rewrite (fold_dict_set_fresh fst (fun item => len (co_authors (snd item)))).
Qed.

Lemma author_coauthors_keys (authors : Authors) :
  dict_keys (map (fun item => (fst item, len (co_authors (snd item)))) authors)
  = dict_keys authors.
Proof. unfold dict_keys. rewrite map_map. reflexivity. Qed.

Lemma author_coauthors_get (authors : Authors) item :
  dict_wf authors -> item ∈ authors ->
  dict_get (map (fun item => (fst item, len (co_authors (snd item)))) authors)
           (fst item)
  = Some (len (co_authors (snd item))).
Proof.
  intros Hwf Hin. apply dict_get_elem.
  - unfold dict_wf. now rewrite author_coauthors_keys.
  - apply elem_of_map. exists item. auto.
Qed.

Lemma num_coauths_all_spec (authors : Authors) :
  dict_wf authors ->
  authors <> [] ->
  exists before a r after,
    authors = before ++ (a, r) :: after /\
    fst (num_coauths_all authors) = Returned (a, len (co_authors r)) /\
    (forall item, item ∈ before -> len (co_authors (snd item)) < len (co_authors r)) /\
    (forall item, item ∈ after -> len (co_authors (snd item)) <= len (co_authors r)).
Proof.
  intros Hwf Hne. unfold num_coauths_all, bind, get, max_or_raise, getitem.
  cbn [fst snd]. rewrite (author_coauthors_wf _ Hwf), author_coauthors_keys.
  set (ac := map (fun item => (fst item, len (co_authors (snd item)))) authors).
  destruct (py_max (dict_get_int ac) (dict_keys authors)) as [a|] eqn:Hmax.
  2:{ apply py_max_None in Hmax. destruct authors; [congruence | discriminate]. }
  apply py_max_first in Hmax as (l1 & l2 & Hkeys & Hlt & Hle).
  unfold dict_keys in Hkeys.
  apply map_eq_app in Hkeys as (before & rest & -> & <- & Hrest).
  destruct rest as [|[a' r] after]; [discriminate|].
  simpl in Hrest. injection Hrest as -> <-.
  assert (Hget : forall item, item ∈ before ++ (a, r) :: after ->
            dict_get_int ac (fst item) = len (co_authors (snd item))).
  { intros item Hin. unfold dict_get_int, ac.
    now rewrite (author_coauthors_get _ item Hwf Hin). }
  exists before, a, r, after. split; [reflexivity|]. split; [|split].
  - assert (Ha : dict_get ac a = Some (len (co_authors r))).
    { apply (author_coauthors_get _ (a, r) Hwf). apply elem_of_app. right. left. }
    unfold ret. cbn [fst snd]. rewrite Ha. reflexivity.
  - intros item Hin.
    assert (Hi := Hget item ltac:(apply elem_of_app; now left)).
    assert (Ha := Hget (a, r) ltac:(apply elem_of_app; right; left)).
    cbn [fst snd] in Ha. rewrite <- Hi, <- Ha.
    apply Hlt. apply elem_of_map. eauto.
  - intros item Hin.
    assert (Hi := Hget item ltac:(apply elem_of_app; right; now right)).
    assert (Ha := Hget (a, r) ltac:(apply elem_of_app; right; left)).
    cbn [fst snd] in Ha. rewrite <- Hi, <- Ha.
    apply Hle. apply elem_of_map. eauto.
Qed.

(** X11: on a non-empty dictionary [num_coauths_all] returns the first
    author, in the order of the dictionary, among those with the longest
    co-author list, together with the length of that list. *)
Theorem num_coauths_all_first_longest (authors : Authors) :
  dict_wf authors ->
  authors <> [] ->
  exists before a r after,
    authors = before ++ (a, r) :: after /\
    fst (num_coauths_all authors) = Returned (a, len (co_authors r)) /\
    (forall item, item ∈ before -> len (co_authors (snd item)) < len (co_authors r)) /\
    (forall item, item ∈ after -> len (co_authors (snd item)) <= len (co_authors r)).
Proof.
  intros Hwf Hne.
  destruct (num_coauths_all_spec authors Hwf Hne)
    as (before & a & r & after & Heq & Hrun & Hlt & Hle).
  exists before, a, r, after. auto.
Qed.

(** X20: no author has more unique co-authors than [num_coauths_all]
    reports: whatever name is asked, [num_coauths] returns a number between
    0 and that maximum, so [compare_authors] never sets a larger number
    against the best one. *)
Theorem num_coauths_at_most_best (authors : Authors) (target_author : string) :
  dict_wf authors ->
  authors <> [] ->
  exists a n k,
    fst (num_coauths_all authors) = Returned (a, n) /\
    fst (num_coauths target_author authors) = Returned k /\
    0 <= k <= n.
Proof.
  intros Hwf Hne.
  destruct (num_coauths_all_spec authors Hwf Hne)
    as (before & a & r & after & Heq & Hrun & Hlt & Hle).
  exists a, (len (co_authors r)). unfold num_coauths, bind, get. cbn [fst snd].
  destruct (dict_get authors target_author) as [data|] eqn:Hg; cbn [fst ret].
  - exists (len (co_authors data)). split; [exact Hrun|]. split; [reflexivity|].
    unfold len. split; [lia|].
    apply dict_get_Some_elem in Hg. rewrite Heq in Hg.
    apply elem_of_app in Hg as [Hg|[Hg|Hg]%elem_of_cons].
    + specialize (Hlt _ Hg). unfold len in Hlt. simpl in Hlt. lia.
    + injection Hg as _ ->. lia.
    + specialize (Hle _ Hg). unfold len in Hle. simpl in Hle. lia.
  - exists 0. split; [exact Hrun|]. split; [reflexivity|]. unfold len. lia.
Qed.

Lemma fold_set_keys {X} (key : X -> string) (val : X -> Z) (items : list X) acc k :
  k ∈ dict_keys (fold_left (fun acc x => dict_set acc (key x) (val x)) items acc) <->
  k ∈ dict_keys acc \/ k ∈ map key items.
Proof.
  revert acc. induction items as [|x items IH]; intros acc; simpl.
  - rewrite elem_of_nil. tauto.
  - rewrite IH, dict_keys_set, elem_of_cons.
    destruct (dict_get acc (key x)) eqn:Hg.
    + assert (key x ∈ dict_keys acc)
        by (apply dict_get_None_keys_neg; congruence).
      split; [tauto|]. intros [?|[->|?]]; auto.
    + rewrite elem_of_app, list_elem_of_singleton. tauto.
Qed.

(** On a non-empty dictionary [num_coauths_all] returns, with one of the
    keys. *)
Lemma num_coauths_all_run (authors : Authors) :
  authors <> [] ->
  exists a n, num_coauths_all authors = (Returned (a, n), authors) /\
              a ∈ dict_keys authors.
Proof.
  intros Hne. unfold num_coauths_all, bind, get, max_or_raise, getitem.
  set (ac := fold_left _ authors []).
  assert (Hkeys : forall k, k ∈ dict_keys ac <-> k ∈ dict_keys authors).
  { intros k. unfold ac. rewrite fold_set_keys. simpl. rewrite elem_of_nil.
    unfold dict_keys. tauto. }
  destruct (py_max (dict_get_int ac) (dict_keys ac)) as [a|] eqn:Hmax.
  - apply py_max_spec in Hmax as [Hin _].
    destruct (dict_get ac a) as [n|] eqn:Hg.
    + exists a, n. split; [|now apply Hkeys].
      unfold ret. cbn beta iota. now rewrite Hg.
    + apply dict_get_None_keys in Hg. contradiction.
  - apply py_max_None in Hmax. destruct authors as [|[k r] authors]; [congruence|].
    exfalso. assert (Hk : k ∈ dict_keys ac) by (apply Hkeys; left).
    rewrite Hmax in Hk. now apply elem_of_nil in Hk.
Qed.

(** X12: [compare_authors] raises [ValueError], from [max], exactly on the
    empty dictionary; on any other it returns a message. *)
Theorem compare_authors_raises_on_empty (authors : Authors) (user_author : string) :
  (authors = [] -> fst (compare_authors user_author authors) = Raised ValueError) /\
  (authors <> [] -> exists message,
     fst (compare_authors user_author authors) = Returned message).
Proof.
  split.
  - intros ->. reflexivity.
  - intros Hne. destruct (num_coauths_all_run authors Hne) as (a & n & Hrun & _).
    unfold compare_authors, bind. rewrite Hrun.
    unfold num_coauths, bind, get.
    destruct (dict_get authors user_author); cbn [fst snd ret];
      repeat case_bool_decide; cbn; eauto.
Qed.

(** X13: for a name that is not in the dictionary, [compare_authors]
    reports 0 unique co-authors beside the best author, and, when the best
    author has no co-author either, reports the unknown name as tied for
    the most. *)
Theorem compare_authors_unknown (authors : Authors) (user_author : string) :
  authors <> [] ->
  user_author ∉ dict_keys authors ->
  exists a n,
    fst (num_coauths_all authors) = Returned (a, n) /\
    fst (compare_authors user_author authors)
    = Returned
        (if bool_decide (n = 0)
         then user_author +:+ " is tied with " +:+ a +:+
              " for the most unique co-authors with 0."
         else user_author +:+
              " has 0 unique co-authors, while the author with the most unique co-authors is "
              +:+ a +:+ " with " +:+ pretty n +:+ ".").
Proof.
  intros Hne Hout. destruct (num_coauths_all_run authors Hne) as (a & n & Hrun & Ha).
  exists a, n. rewrite Hrun. split; [reflexivity|].
  unfold compare_authors, bind. rewrite Hrun.
  unfold num_coauths, bind, get. cbn [fst snd].
  apply dict_get_None_keys in Hout. rewrite Hout. cbn [fst snd ret].
  rewrite bool_decide_eq_false_2 by (intros ->; now apply dict_get_None_keys in Hout).
  destruct (decide (n = 0)) as [->|Hn].
  - rewrite !bool_decide_eq_true_2 by reflexivity. reflexivity.
  - rewrite !bool_decide_eq_false_2 by congruence. reflexivity.
Qed.

(** *** [AuthorComparer.most_common_coauthors] *)

Lemma count_pair_keys_iff (a c : string) counts key :
  key ∈ dict_keys (count_pair a counts c) <->
  key ∈ dict_keys counts \/ sorted_pair a c = key.
Proof.
  unfold count_pair.
  destruct (dict_get counts (sorted_pair a c)) eqn:Hg; rewrite dict_keys_set, Hg.
  - split; [tauto|]. intros [Hk| <-]; [exact Hk|].
    apply dict_get_None_keys_neg. congruence.
  - rewrite elem_of_app, list_elem_of_singleton. split; intros [?|?]; auto.
Qed.

(** The keys of [coauthor_counts] are the sorted pairs of the (author,
    co-author) met by the loops. *)
Lemma count_pairs_keys_iff (authors : Authors) key :
  key ∈ dict_keys (count_pairs authors) <->
  exists m, m ∈ mentions authors /\ sorted_pair (fst m) (snd m) = key.
Proof.
  unfold count_pairs.
  assert (Hinner : forall a cs counts,
    key ∈ dict_keys (fold_left (count_pair a) cs counts) <->
    key ∈ dict_keys counts \/
    exists m, m ∈ map (fun c => (a, c)) cs /\ sorted_pair (fst m) (snd m) = key).
  { intros a cs. induction cs as [|c cs IH]; intros counts; simpl.
    - split; [auto|]. intros [H|(m & []%elem_of_nil & _)]. exact H.
    - rewrite IH, count_pair_keys_iff. split.
      + intros [[H|H]|(m & Hm & H)]; auto.
        * right. exists (a, c). split; [left | exact H].
        * right. exists m. split; [now right | exact H].
      + intros [H|(m & [->|Hm]%elem_of_cons & H)]; eauto. }
  assert (Hgen : forall counts,
    key ∈ dict_keys (fold_left (fun counts item =>
        fold_left (count_pair (fst item)) (co_authors (snd item)) counts)
      authors counts) <->
    key ∈ dict_keys counts \/
    exists m, m ∈ mentions authors /\ sorted_pair (fst m) (snd m) = key).
  { induction authors as [|item authors IH]; intros counts; simpl.
    - split; [auto|]. intros [H|(m & []%elem_of_nil & _)]. exact H.
    - rewrite IH, Hinner. split.
      + intros [[H|(m & Hm & H)]|(m & Hm & H)]; auto.
        * right. exists m. rewrite elem_of_app. auto.
        * right. exists m. rewrite elem_of_app. auto.
      + intros [H|(m & [Hm|Hm]%elem_of_app & H)]; eauto. }
  rewrite Hgen. simpl. rewrite elem_of_nil. tauto.
Qed.

Lemma mentions_nil (authors : Authors) :
  mentions authors = [] <-> forall item, item ∈ authors -> co_authors (snd item) = [].
Proof.
  unfold mentions. induction authors as [|first authors IH]; simpl.
  - split; [|reflexivity]. intros _ item Hin. now apply elem_of_nil in Hin.
  - split.
    + intros [Hco Hrest]%app_eq_nil item [->|Hin]%elem_of_cons.
      * now apply map_eq_nil in Hco.
      * now apply IH.
    + intros Hall. rewrite (Hall first) by left. simpl.
      apply IH. intros item Hin. apply Hall. now right.
Qed.

Lemma mentions_elem (authors : Authors) m :
  m ∈ mentions authors <->
  exists item, item ∈ authors /\ fst m = fst item /\ snd m ∈ co_authors (snd item).
Proof.
  unfold mentions. rewrite list_elem_of_In, in_flat_map. split.
  - intros (item & Hitem & Hm). exists item.
    apply list_elem_of_In in Hitem. split; [exact Hitem|].
    apply in_map_iff in Hm as (c & <- & Hc). apply list_elem_of_In in Hc. auto.
  - intros (item & Hitem & Hf & Hc). exists item.
    split; [now apply list_elem_of_In|].
    apply in_map_iff. exists (snd m). split; [|now apply list_elem_of_In].
    destruct m; simpl in *. now rewrite Hf.
Qed.

(** [most_common_coauthors] in terms of the pairs met. *)
Lemma most_common_coauthors_run (authors : Authors) :
  (mentions authors = [] /\
   most_common_coauthors authors = (Raised ValueError, authors)) \/
  (exists pair count,
     most_common_coauthors authors = (Returned (pair, count), authors) /\
     pair ∈ dict_keys (count_pairs authors) /\
     dict_get (count_pairs authors) pair = Some count).
Proof.
  unfold most_common_coauthors, bind, get, max_or_raise, getitem.
  destruct (py_max (dict_get_int (count_pairs authors))
                   (dict_keys (count_pairs authors))) as [pair|] eqn:Hmax.
  - right. apply py_max_spec in Hmax as [Hin _].
    destruct (dict_get (count_pairs authors) pair) as [count|] eqn:Hg.
    + exists pair, count. split; [|auto]. unfold ret. cbn beta iota. now rewrite Hg.
    + apply dict_get_None_keys in Hg. contradiction.
  - left. apply py_max_None in Hmax. split; [|reflexivity].
    destruct (mentions authors) as [|m ms] eqn:Hm; [reflexivity|]. exfalso.
    assert (Hk : sorted_pair (fst m) (snd m) ∈ dict_keys (count_pairs authors)).
    { apply count_pairs_keys_iff. exists m. rewrite Hm. split; [left | reflexivity]. }
    rewrite Hmax in Hk. now apply elem_of_nil in Hk.
Qed.

(** X14: [most_common_coauthors] raises [ValueError], from [max], exactly
    when no author of the dictionary has a co-author; otherwise it returns a
    pair and a count (the lookup of the count never fails). *)
Theorem most_common_coauthors_raises_without_coauthors (authors : Authors) :
  ((forall item, item ∈ authors -> co_authors (snd item) = []) <->
   fst (most_common_coauthors authors) = Raised ValueError) /\
  ((exists item, item ∈ authors /\ co_authors (snd item) <> []) <->
   exists p q count, fst (most_common_coauthors authors) = Returned (p, q, count)).
Proof.
  rewrite <- mentions_nil.
  destruct (most_common_coauthors_run authors)
    as [[Hnil Hrun]|([p q] & count & Hrun & Hin & _)]; rewrite Hrun; cbn [fst].
  - split; [tauto|]. split.
    + intros (item & Hitem & Hco). exfalso. apply Hco.
      now apply (proj1 (mentions_nil authors) Hnil).
    + intros (p & q & c & [=]).
  - apply count_pairs_keys_iff in Hin as (m & Hm & _).
    assert (Hsome : mentions authors <> []) by (intros Hnil; rewrite Hnil in Hm;
      now apply elem_of_nil in Hm).
    split; [split; [contradiction | discriminate]|].
    split; [eauto|]. intros _.
    apply mentions_elem in Hm as (item & Hitem & _ & Hco).
    exists item. split; [exact Hitem|]. intros Hnil. rewrite Hnil in Hco.
    now apply elem_of_nil in Hco.
Qed.

Lemma returned_pair_counted (authors : Authors) p q count :
  fst (most_common_coauthors authors) = Returned (p, q, count) ->
  sorted_pair p q = (p, q) /\
  count = Z.of_nat (tally (p, q) (mentions authors)) /\
  exists m, m ∈ mentions authors /\ sorted_pair (fst m) (snd m) = (p, q).
Proof.
  intros Hret.
  destruct (most_common_coauthors_run authors)
    as [[_ Hrun]|(pair & c & Hrun & Hin & Hg)]; rewrite Hrun in Hret;
    cbn [fst] in Hret; [discriminate|].
  injection Hret as -> ->.
  split; [now apply (count_pairs_keys authors (p, q))|]. split.
  - rewrite <- count_pairs_get. unfold dict_get_int. now rewrite Hg.
  - now apply count_pairs_keys_iff.
Qed.

Lemma tally_elem key m ms :
  m ∈ ms -> sorted_pair (fst m) (snd m) = key -> (1 <= tally key ms)%nat.
Proof.
  intros Hm Hkey. unfold tally.
  assert (Hin : m ∈ List.filter
            (fun m => bool_decide (sorted_pair (fst m) (snd m) = key)) ms).
  { apply elem_of_List_filter. split; [exact Hm|]. now apply bool_decide_eq_true_2. }
  destruct (List.filter _ ms); [now apply elem_of_nil in Hin | simpl; lia].
Qed.

(** X15: the pair that [most_common_coauthors] returns is in code-point
    order and is one the dictionary has: one of the two names lists the
    other.  The count is the number of times the loops met the two names
    together, at least 1, and no pair was met more often. *)
Theorem most_common_pair_is_largest (authors : Authors) p q count :
  fst (most_common_coauthors authors) = Returned (p, q, count) ->
  String.ltb q p = false /\
  ((p, q) ∈ mentions authors \/ (q, p) ∈ mentions authors) /\
  count = Z.of_nat (tally (p, q) (mentions authors)) /\
  1 <= count /\
  forall key, Z.of_nat (tally key (mentions authors)) <= count.
Proof.
  intros Hret.
  destruct (returned_pair_counted _ _ _ _ Hret) as (Hsorted & Hcount & [x y] & Hm & Hkey).
  simpl in Hkey.
  split; [|split; [|split; [exact Hcount|split]]].
  - unfold sorted_pair in Hsorted.
    destruct (String.ltb q p) eqn:Hqp; [|reflexivity].
    injection Hsorted as -> _. pose proof (ltb_asym _ _ Hqp). congruence.
  - rewrite <- Hsorted in Hkey.
    apply sorted_pair_inv in Hkey as [[-> ->]|[-> ->]]; auto.
  - rewrite Hcount. apply (tally_elem (p, q)) in Hm; [lia | exact Hkey].
  - intros key. rewrite <- count_pairs_get.
    destruct (dict_get (count_pairs authors) key) as [c|] eqn:Hg.
    + apply (most_common_coauthors_max authors (p, q) count Hret).
      apply dict_get_None_keys_neg. congruence.
    + unfold dict_get_int. rewrite Hg. simpl.
      apply (tally_elem (p, q)) in Hm; [lia | exact Hkey].
Qed.

Lemma count_NoDup (l : list string) (b : string) :
  NoDup l -> (length (List.filter (fun c => bool_decide (c = b)) l) <= 1)%nat.
Proof.
  induction l as [|c l IH]; simpl; [lia|].
  intros [Hfresh Hnd]%NoDup_cons. specialize (IH Hnd).
  case_bool_decide as Hc; [|exact IH]. subst c. simpl.
  assert (Hnone : List.filter (fun c => bool_decide (c = b)) l = []).
  { destruct (List.filter _ l) as [|x f] eqn:Hf; [reflexivity|]. exfalso.
    assert (Hx : x ∈ List.filter (fun c => bool_decide (c = b)) l)
      by (rewrite Hf; left).
    apply elem_of_List_filter in Hx as [Hx Hb].
    apply bool_decide_eq_true in Hb. subst x. contradiction. }
  rewrite Hnone. simpl. lia.
Qed.

Lemma mentions_of_NoDup (authors : Authors) a b :
  (forall item, item ∈ authors -> NoDup (co_authors (snd item))) ->
  (mentions_of authors a b <= 1)%nat.
Proof.
  intros Hnd. unfold mentions_of, coauthors_of.
  destruct (dict_get authors a) as [r|] eqn:Hg; [|simpl; lia].
  apply count_NoDup. apply dict_get_Some_elem in Hg. exact (Hnd (a, r) Hg).
Qed.

(** X16: on a dictionary whose co-author lists have no name twice, as the
    lists that went through [list(set(...))] are, the count returned by
    [most_common_coauthors] is 1 or 2, however many articles the pair has
    written. *)
Theorem most_common_count_at_most_two (authors : Authors) p q count :
  dict_wf authors ->
  (forall item, item ∈ authors -> NoDup (co_authors (snd item))) ->
  fst (most_common_coauthors authors) = Returned (p, q, count) ->
  1 <= count <= 2.
Proof.
  intros Hwf Hnd Hret.
  destruct (returned_pair_counted _ _ _ _ Hret) as (Hsorted & Hcount & m & Hm & Hkey).
  apply (tally_elem (p, q)) in Hm; [|exact Hkey].
  split; [lia|]. rewrite Hcount, <- Hsorted.
  pose proof (mentions_of_NoDup authors p q Hnd).
  pose proof (mentions_of_NoDup authors q p Hnd).
  pose proof (mentions_of_NoDup authors p p Hnd).
  destruct (decide (p = q)) as [<-|Hpq].
  - rewrite tally_same, occurrences_mentions by exact Hwf. lia.
  - rewrite tally_two_directions, !occurrences_mentions by assumption. lia.
Qed.

(** *** The bar charts *)

(** X17: given the ranking of [most_influential], [visualize_top_authors]
    shows one chart, of the first 10 authors of the ranking (all of them
    when there are fewer): their names with their [num_pubs], in decreasing
    order, and no author left out has more publications than one shown. *)
Theorem top_authors_chart (authors : Authors) (shown : list Chart) :
  exists ranking charted rest,
    fst (most_influential authors) = Returned ranking /\
    ranking = charted ++ rest /\
    charted ++ rest ≡ₚ authors /\
    length charted = Nat.min 10 (length authors) /\
    StronglySorted (fun x y => num_pubs (snd y) <= num_pubs (snd x)) charted /\
    (forall x y, x ∈ charted -> y ∈ rest -> num_pubs (snd y) <= num_pubs (snd x)) /\
    visualize_top_authors ranking shown
    = (Returned tt,
       shown ++ [BarH (map fst charted) (map (fun item => num_pubs (snd item)) charted)]).
Proof.
  destruct (top_of_sorted (fun x : string * AuthorRecord => num_pubs (snd x)) authors 10)
    as (charted & rest & Heq & Htop & Hperm & Hlen & Hdesc & Hcross).
  exists (sorted (fun x => num_pubs (snd x)) true authors), charted, rest.
  split; [reflexivity|]. split; [exact Heq|]. split; [exact Hperm|].
  split; [exact Hlen|]. split; [exact Hdesc|]. split; [exact Hcross|].
  unfold visualize_top_authors, show. now rewrite <- Htop.
Qed.

(** X18: [visualize_unique_coauthors] shows one chart, of the 10 authors
    with the longest co-author lists (all of them when there are fewer):
    their names with the lengths, in decreasing order, and no author left
    out has a longer list than one shown. *)
Theorem unique_coauthors_chart (authors : Authors) (shown : list Chart) :
  exists charted rest : list (string * Z),
    charted ++ rest ≡ₚ map (fun item => (fst item, len (co_authors (snd item)))) authors /\
    length charted = Nat.min 10 (length authors) /\
    StronglySorted (fun x y => snd y <= snd x) charted /\
    (forall x y, x ∈ charted -> y ∈ rest -> snd y <= snd x) /\
    visualize_unique_coauthors authors shown
    = (Returned tt, shown ++ [BarH (map fst charted) (map snd charted)]).
Proof.
  destruct (top_of_sorted (snd : string * Z -> Z)
              (map (fun item => (fst item, len (co_authors (snd item)))) authors) 10)
    as (charted & rest & Heq & Htop & Hperm & Hlen & Hdesc & Hcross).
  exists charted, rest. rewrite length_map in Hlen.
  split; [exact Hperm|]. split; [exact Hlen|]. split; [exact Hdesc|].
  split; [exact Hcross|].
  unfold visualize_unique_coauthors, show. now rewrite <- Htop.
Qed.

(** *** After an invalid category *)

(** X19: a fresh analyzer that is given an invalid category keeps the empty
    dictionary of its constructor; on that dictionary, which is what the
    program goes on with, [compare_authors] and [most_common_coauthors]
    raise [ValueError] while [most_influential] returns the empty list and
    [num_coauths] returns 0. *)
Theorem analysis_after_invalid_category choose (typed user_author : string)
    (files : Disk) (lines : list string) :
  lower typed ∉ categories ->
  self_authors (snd (get_articles choose typed (new_analyzer files lines))) = [] /\
  fst (compare_authors user_author
         (self_authors (snd (get_articles choose typed (new_analyzer files lines)))))
    = Raised ValueError /\
  fst (most_common_coauthors
         (self_authors (snd (get_articles choose typed (new_analyzer files lines)))))
    = Raised ValueError /\
  fst (most_influential
         (self_authors (snd (get_articles choose typed (new_analyzer files lines)))))
    = Returned [] /\
  fst (num_coauths user_author
         (self_authors (snd (get_articles choose typed (new_analyzer files lines)))))
    = Returned 0.
Proof.
  intros Hbad.
  assert (Hkeep :
    self_authors (snd (get_articles choose typed (new_analyzer files lines))) = []).
  { unfold get_articles, bind, print.
    now rewrite (bool_decide_eq_false_2 _ Hbad). }
  rewrite Hkeep. repeat split; reflexivity.
Qed.

(** *** Runs *)

Lemma take_first_sample (l : list (string * AuthorRecord)) (k : nat) :
  (k <= length l)%nat -> length (take_first l k) = k /\ take_first l k ⊆+ l.
Proof.
  intros Hk. unfold take_first. split.
  - now apply firstn_length_le.
  - apply sublist_submseteq, sublist_take.
Qed.

Lemma get_articles_missing_file_witness :
  get_articles take_first "Physics" (new_analyzer [] [])
  = (Raised (FileNotFoundError (file_of (lower "Physics"))),
     mkSession [] [] ([] ++ [prompt]) []).
Proof.
  apply (get_articles_missing_file take_first "Physics" (new_analyzer [] [])).
  - apply (bool_decide_unpack _). vm_compute. exact I.
  - reflexivity.
Defined.

Lemma get_articles_small_file_witness :
  get_articles take_first "Computer Science" session_after_dump
  = (Raised ValueError,
     mkSession (self_authors session_after_dump) (disk session_after_dump)
               (stdout session_after_dump ++ [prompt])
               (opened session_after_dump ++ [file_of (lower "Computer Science")])).
Proof.
  apply (get_articles_small_file take_first "Computer Science" session_after_dump
           authors_AB).
  - apply (bool_decide_unpack _). vm_compute. exact I.
  - vm_compute. reflexivity.
  - vm_compute. lia.
Defined.

Lemma get_articles_sample_witness :
  exists articles,
    fst (get_articles take_first "Statistics" session_with_sixty)
      = Returned (Some articles) /\
    self_authors (snd (get_articles take_first "Statistics" session_with_sixty))
      = articles /\
    length articles = 50%nat /\
    dict_wf articles /\
    forall n r, dict_get articles n = Some r -> dict_get sixty_authors n = Some r.
Proof.
  apply (get_articles_sample take_first "Statistics" session_with_sixty sixty_authors).
  - exact take_first_sample.
  - apply (bool_decide_unpack _). vm_compute. exact I.
  - vm_compute. reflexivity.
  - apply (bool_decide_unpack _). vm_compute. exact I.
  - vm_compute. lia.
Defined.

Lemma authors_AB_wf : dict_wf authors_AB.
Proof. apply (bool_decide_unpack _). vm_compute. exact I. Qed.

Lemma num_coauths_all_first_longest_witness :
  exists before a r after,
    authors_AB = before ++ (a, r) :: after /\
    fst (num_coauths_all authors_AB) = Returned (a, len (co_authors r)) /\
    (forall item, item ∈ before -> len (co_authors (snd item)) < len (co_authors r)) /\
    (forall item, item ∈ after -> len (co_authors (snd item)) <= len (co_authors r)).
Proof.
  apply (num_coauths_all_first_longest authors_AB).
  - exact authors_AB_wf.
  - discriminate.
Defined.

Lemma compare_authors_unknown_witness :
  exists a n,
    fst (num_coauths_all authors_AB) = Returned (a, n) /\
    fst (compare_authors "Z" authors_AB)
    = Returned
        (if bool_decide (n = 0)
         then "Z" +:+ " is tied with " +:+ a +:+
              " for the most unique co-authors with 0."
         else "Z" +:+
              " has 0 unique co-authors, while the author with the most unique co-authors is "
              +:+ a +:+ " with " +:+ pretty n +:+ ".").
Proof.
  apply (compare_authors_unknown authors_AB "Z").
  - discriminate.
  - apply (bool_decide_unpack _). vm_compute. exact I.
Defined.

Lemma most_common_pair_is_largest_witness :
  String.ltb "B" "A" = false /\
  (("A", "B") ∈ mentions authors_AB \/ ("B", "A") ∈ mentions authors_AB) /\
  2 = Z.of_nat (tally ("A", "B") (mentions authors_AB)) /\
  1 <= 2 /\
  forall key, Z.of_nat (tally key (mentions authors_AB)) <= 2.
Proof.
  apply (most_common_pair_is_largest authors_AB "A" "B" 2).
  vm_compute. reflexivity.
Defined.

Lemma num_coauths_at_most_best_witness :
  exists a n k,
    fst (num_coauths_all authors_AB) = Returned (a, n) /\
    fst (num_coauths "B" authors_AB) = Returned k /\
    0 <= k <= n.
Proof.
  apply (num_coauths_at_most_best authors_AB "B").
  - exact authors_AB_wf.
  - discriminate.
Defined.

Lemma most_common_count_at_most_two_witness :
  fst (most_common_coauthors authors_AB) = Returned ("A", "B", 2) /\ 1 <= 2 <= 2.
Proof.
  assert (Hrun : fst (most_common_coauthors authors_AB) = Returned ("A", "B", 2))
    by (vm_compute; reflexivity).
  split; [exact Hrun|].
  apply (most_common_count_at_most_two authors_AB "A" "B" 2).
  - exact authors_AB_wf.
  - intros item Hin. apply (bool_decide_unpack _).
    apply elem_of_cons in Hin as [->|Hin]; [vm_compute; exact I|].
    apply list_elem_of_singleton in Hin as ->. vm_compute. exact I.
  - exact Hrun.
Defined.

Lemma analysis_after_invalid_category_witness :
  self_authors (snd (get_articles take_first "Biology" (new_analyzer [] []))) = [] /\
  fst (compare_authors "A"
         (self_authors (snd (get_articles take_first "Biology" (new_analyzer [] [])))))
    = Raised ValueError /\
  fst (most_common_coauthors
         (self_authors (snd (get_articles take_first "Biology" (new_analyzer [] [])))))
    = Raised ValueError /\
  fst (most_influential
         (self_authors (snd (get_articles take_first "Biology" (new_analyzer [] [])))))
    = Returned [] /\
  fst (num_coauths "A"
         (self_authors (snd (get_articles take_first "Biology" (new_analyzer [] [])))))
    = Returned 0.
Proof.
  apply (analysis_after_invalid_category take_first "Biology" "A" [] []).
  apply (bool_decide_unpack _). vm_compute. exact I.
Defined.

End CoauthorMore.

(** ** From one program to the other *)

Module Pipeline.
Import DataStructure Coauthor DataStructureMore CoauthorMore.

Section Pipeline.
Context {Author : Type} (name : Author -> string) (ne : Author -> Author -> bool).
Context (fetch : string -> list (Article Author)).
Context (choose : list (string * AuthorRecord) -> nat -> list (string * AuthorRecord)).

(** X21: after the first program has run over the six categories, the
    second one, given one of them in any case, returns 50 records when that
    category has 50 authors or more, each the record aggregated under that
    name from the category's articles. *)
Theorem sample_of_the_aggregate (category typed : string) (files : Disk)
    (lines : list string) (s : Session) :
  (forall l k, (k <= length l)%nat ->
     length (choose l k) = k /\ choose l k ⊆+ l) ->
  category ∈ categories ->
  lower typed = category ->
  disk s = fst (main name ne fetch (files, lines)) ->
  (50 <= length (aggregate name ne (fetch category)))%nat ->
  exists articles,
    fst (get_articles choose typed s) = Returned (Some articles) /\
    self_authors (snd (get_articles choose typed s)) = articles /\
    length articles = 50%nat /\
    forall n r, dict_get articles n = Some r ->
                dict_get (aggregate name ne (fetch category)) n = Some r.
Proof.
  intros Hchoose Hcat Hlow Hdisk Hlong. subst category.
  assert (Hfile : dict_get (disk s) (file_of (lower typed))
                  = Some (aggregate name ne (fetch (lower typed)))).
  { rewrite Hdisk. unfold main. apply main_loop_file; [|exact Hcat].
    intros c1 c2. apply file_of_inj. }
  destruct (get_articles_run_sample choose typed s _ Hchoose Hcat Hfile
              (aggregate_wf name ne _) Hlong) as (Hrun & _ & Hsame).
  exists (choose (aggregate name ne (fetch (lower typed))) 50%nat).
  rewrite Hrun. cbn [fst snd self_authors].
  split; [reflexivity|]. split; [reflexivity|].
  split; [apply (Hchoose _ 50%nat Hlong) | exact Hsame].
Qed.
End Pipeline.

Lemma sample_of_the_aggregate_witness :
  exists articles,
    fst (get_articles take_first "Mathematics"
           (mkSession [] (fst (main Arxiv.name Arxiv.ne fetch_sixty ([], []))) [] []))
      = Returned (Some articles) /\
    self_authors (snd (get_articles take_first "Mathematics"
           (mkSession [] (fst (main Arxiv.name Arxiv.ne fetch_sixty ([], []))) [] [])))
      = articles /\
    length articles = 50%nat /\
    forall n r, dict_get articles n = Some r ->
                dict_get (aggregate Arxiv.name Arxiv.ne (fetch_sixty "mathematics")) n
                = Some r.
Proof.
  apply (sample_of_the_aggregate Arxiv.name Arxiv.ne fetch_sixty take_first
           "mathematics" "Mathematics" [] []
           (mkSession [] (fst (main Arxiv.name Arxiv.ne fetch_sixty ([], []))) [] [])).
  - exact take_first_sample.
  - apply (bool_decide_unpack _). vm_compute. exact I.
  - vm_compute. reflexivity.
  - reflexivity.
  - vm_compute. lia.
Defined.

End Pipeline.
